(** * liberrc: values with an error term and their propagation rules

    A shallow embedding of [errc.h]: the class template [ErrorValue<T, E>]
    and the functions of namespace [errmath], followed by the properties of
    the specification that can be settled on them. *)

From stdpp Require Import base option gmap strings pretty.
From Stdlib Require Import ZArith QArith Qabs Reals Lra Lia.
From Stdlib Require Import Uint63 PrimFloat.

Set Default Proof Using "Type".

(** ** The arithmetic a template argument has to offer

    [ErrorValue] is a template with a value type [T], any arithmetic type
    but [bool], and an error type [E], a floating-point type; the embedding
    is generic in both. A member is only instantiated when it is used, hence
    the capabilities are split the way the members need them. *)

(** The arithmetic of the floating-point type [E]. Every operation has a
    result: infinities and NaN are values of the type. *)
Class Arith (E : Type) := {
  of_Z : Z -> E;                (* an integer literal converted to [E] *)
  add : E -> E -> E;
  sub : E -> E -> E;
  mul : E -> E -> E;
  div : E -> E -> E;
  neg : E -> E
}.

(** The arithmetic of the value type [T]. For an integral [T] an operation
    can be without a defined result -- a signed overflow, a division by
    zero --, which is [None]. A product with the literal [0] is defined in
    every arithmetic type. *)
Class Value (T : Type) := {
  lit : Z -> T;                 (* an integer literal converted to [T] *)
  v_add : T -> T -> option T;
  v_sub : T -> T -> option T;
  v_mul : T -> T -> option T;
  v_div : T -> T -> option T;
  v_neg : T -> option T;
  v_mul_zero : forall x y, x = lit 0 \/ y = lit 0 -> is_Some (v_mul x y)
}.

(** Where a [T] meets an [E] in an expression it is converted to [E]: the
    embedding covers the instantiations in which [E] is the common type of
    the two, that is an integral [T], or a floating-point [T] that is [E]. *)
Class Convert (T E : Type) := to_E : T -> E.

(** What [halfErrorCalcFunction] needs of [T] on top: [==], [floor] and
    [%]. The last exists for an integral [T] only, so [T] is integral
    wherever the function is instantiated: [floor(x) == x] holds of every
    [x], and a remainder or a quotient by the literal [10] is defined. *)
Class Decimal (T : Type) `{Value T} := {
  eqb : T -> T -> bool;
  floor : T -> T;
  rem : T -> T -> option T;
  floor_whole : forall x, eqb (floor x) x = true;
  rem_ten : forall x, is_Some (rem x (lit 10));
  div_ten : forall x, is_Some (v_div x (lit 10))
}.

(** [pow] with a whole exponent, as [halfErrorCalcFunction] calls it. *)
Class Pow (E : Type) := c_pow : E -> Z -> E.

(** The functions of [<cmath>] that the modelled part of [errmath] calls,
    one class each: a function of [errmath] needs those it names. *)
Class Sqrt (F : Type) := c_sqrt : F -> F.
Class Asin (F : Type) := c_asin : F -> F.
Class Acos (F : Type) := c_acos : F -> F.
Class Atan (F : Type) := c_atan : F -> F.
Class Log (F : Type) := c_log : F -> F.
Class Acosh (F : Type) := c_acosh : F -> F.

(** ** The object *)

Definition DEF_ERROR_ZERO : Z := 0.
Definition DEF_ERROR_HALF : Z := 1.
Definition DEF_ERROR_FUNC : Z := 2.

(** [std::function<E(T)>] is an optional function: [None] is [nullptr]. *)
Record ErrorValue (T E : Type) := mkErrorValue {
  value : T;
  error : E;
  numberDefaultErrorCode : Z;
  defaultErrorCalcFunction : option (T -> E)
}.
Arguments mkErrorValue {T E} _ _ _ _.
Arguments value {T E} _.
Arguments error {T E} _.
Arguments numberDefaultErrorCode {T E} _.
Arguments defaultErrorCalcFunction {T E} _.

(** ** Exceptions, the store and the monad of the member functions *)

Inductive exn :=
  | range_error (what : string)
  | bad_function_call.

(** [Undefined] is behaviour that C++ leaves undefined: a read or write
    through a reference to no live object, an operation of [T] without a
    defined result, control that reaches the end of a function which has to
    return a value. [Timeout] is a loop that outlived its fuel. *)
Inductive outcome (A : Type) :=
  | Normal (a : A)
  | Throws (e : exn)
  | Undefined
  | Timeout.
Arguments Normal {A} _.
Arguments Throws {A} _.
Arguments Undefined {A}.
Arguments Timeout {A}.

Definition addr := positive.

(** The live objects, and -- as ghost state -- the divisor of every division
    evaluated so far, converted to [E], latest first. *)
Record state (T E : Type) := mkState {
  objs : gmap addr (ErrorValue T E);
  divisors : list E
}.
Arguments mkState {T E} _ _.
Arguments objs {T E} _.
Arguments divisors {T E} _.

Definition M (T E A : Type) : Type := state T E -> outcome A * state T E.

#[global] Instance M_ret {T E} : MRet (M T E) := fun A a σ => (Normal a, σ).

(** What is not a normal return ends the computation, with the state as it
    was at that point. *)
#[global] Instance M_bind {T E} : MBind (M T E) := fun A B k m σ =>
  match m σ with
  | (Normal a, σ') => k a σ'
  | (Throws e, σ') => (Throws e, σ')
  | (Undefined, σ') => (Undefined, σ')
  | (Timeout, σ') => (Timeout, σ')
  end.

Definition throw {T E A} (e : exn) : M T E A := fun σ => (Throws e, σ).
Definition timeout {T E A} : M T E A := fun σ => (Timeout, σ).

(** Control reaches the closing brace of a function that is declared to
    return a value. *)
Definition undefined {T E A} : M T E A := fun σ => (Undefined, σ).

Section Store.
Context {T E : Type}.

Definition load (p : addr) : M T E (ErrorValue T E) := fun σ =>
  match objs σ !! p with
  | Some x => (Normal x, σ)
  | None => (Undefined, σ)
  end.

Definition update (p : addr) (f : ErrorValue T E -> ErrorValue T E)
    : M T E unit :=
  fun σ =>
    match objs σ !! p with
    | Some x => (Normal tt, mkState (<[p := f x]> (objs σ)) (divisors σ))
    | None => (Undefined, σ)
    end.

(** A local or a temporary comes to life at an address not in use ... *)
Definition alloc (x : ErrorValue T E) : M T E addr := fun σ =>
  let p := fresh (dom (objs σ)) in
  (Normal p, mkState (<[p := x]> (objs σ)) (divisors σ)).

(** ... and dies at the end of its scope. *)
Definition free (p : addr) : M T E unit := fun σ =>
  (Normal tt, mkState (delete p (objs σ)) (divisors σ)).

Definition get_value (p : addr) : M T E T := x ← load p; mret (value x).
Definition get_error (p : addr) : M T E E := x ← load p; mret (error x).

Definition set_value (p : addr) (v : T) : M T E unit :=
  update p (fun x => mkErrorValue v (error x) (numberDefaultErrorCode x)
                                  (defaultErrorCalcFunction x)).
Definition set_error (p : addr) (e : E) : M T E unit :=
  update p (fun x => mkErrorValue (value x) e (numberDefaultErrorCode x)
                                  (defaultErrorCalcFunction x)).

(** The result of an operation of [T], if it has one. *)
Definition defined {A} (r : option A) : M T E A := fun σ =>
  match r with
  | Some a => (Normal a, σ)
  | None => (Undefined, σ)
  end.

(** Every [/] of the source goes through [divide] or [divide_T], which note
    the divisor: [divide] is the division of [E], [divide_T] that of [T]. *)
Definition divide `{Arith E} (x y : E) : M T E E := fun σ =>
  (Normal (div x y), mkState (objs σ) (y :: divisors σ)).

Definition divide_T `{Value T} `{Convert T E} (x y : T) : M T E T := fun σ =>
  defined (v_div x y) (mkState (objs σ) (to_E y :: divisors σ)).
End Store.

(** ** [class ErrorValue]

    A member function takes the address of [this]; a parameter of type
    [const ErrorValue&] is an address too, so that [a *= a] is the aliased
    call it is in C++. *)
Module EV.
Section Members.
Context {T E : Type} `{Arith E} `{Value T} `{Convert T E}.

(** [ErrorValue(T value_, E error_)]: the other two members get their
    default member initializers. *)
Definition ctor (value_ : T) (error_ : E) : ErrorValue T E :=
  mkErrorValue value_ error_ DEF_ERROR_ZERO None.

(** *** Compound assignment

    The four operators are declared to return an [ErrorValue] and their
    bodies have no [return] statement: after the assignments control
    reaches the end of the function. *)

(** [value += ev.value; error += ev.error;] *)
Definition op_add_assign (this ev : addr) : M T E (ErrorValue T E) :=
  v ← get_value this; ev_value ← get_value ev;
  s ← defined (v_add v ev_value);
  set_value this s;;
  e ← get_error this; ev_error ← get_error ev;
  set_error this (add e ev_error);;
  undefined.

(** [value -= ev.value; error += ev.error;] *)
Definition op_sub_assign (this ev : addr) : M T E (ErrorValue T E) :=
  v ← get_value this; ev_value ← get_value ev;
  s ← defined (v_sub v ev_value);
  set_value this s;;
  e ← get_error this; ev_error ← get_error ev;
  set_error this (add e ev_error);;
  undefined.

(** [T oldV = value; value *= ev.value;
     error = value*(error/oldV + ev.error/ev.value);] *)
Definition op_mul_assign (this ev : addr) : M T E (ErrorValue T E) :=
  oldV ← get_value this;
  v ← get_value this; ev_value ← get_value ev;
  p ← defined (v_mul v ev_value);
  set_value this p;;
  v' ← get_value this;
  e ← get_error this;
  q1 ← divide e (to_E oldV);
  ev_error ← get_error ev; ev_value' ← get_value ev;
  q2 ← divide ev_error (to_E ev_value');
  set_error this (mul (to_E v') (add q1 q2));;
  undefined.

(** [T oldV = value; value /= ev.value;
     error = value*(error/oldV + ev.error/ev.value);] *)
Definition op_div_assign (this ev : addr) : M T E (ErrorValue T E) :=
  oldV ← get_value this;
  v ← get_value this; ev_value ← get_value ev;
  q ← divide_T v ev_value;
  set_value this q;;
  v' ← get_value this;
  e ← get_error this;
  q1 ← divide e (to_E oldV);
  ev_error ← get_error ev; ev_value' ← get_value ev;
  q2 ← divide ev_error (to_E ev_value');
  set_error this (mul (to_E v') (add q1 q2));;
  undefined.

(** *** The binary operators: [ErrorValue res = *this; res OP= ev;
    return res;] with [res] a local of the call. *)

Definition binary (op_assign : addr -> addr -> M T E (ErrorValue T E))
    (this ev : addr) : M T E (ErrorValue T E) :=
  x ← load this;
  res ← alloc x;
  op_assign res ev;;
  r ← load res;
  free res;;
  mret r.

Definition op_add := binary op_add_assign.
Definition op_sub := binary op_sub_assign.
Definition op_mul := binary op_mul_assign.
Definition op_div := binary op_div_assign.

(** [operator+()] returns a copy, [operator-()] the new object
    [ErrorValue(-value, error)]. *)
Definition op_pos (this : addr) : M T E (ErrorValue T E) := load this.
Definition op_neg (this : addr) : M T E (ErrorValue T E) :=
  x ← load this;
  n ← defined (v_neg (value x));
  mret (ctor n (error x)).

(** *** Members, [set] and the bounds *)

(** [E operator[](int i)]: [return value;] converts to [E]. *)
Definition op_index (this : addr) (i : Z) : M T E E :=
  x ← load this;
  if decide (i = 0%Z) then mret (to_E (value x))
  else if decide (i = 1%Z) then mret (error x)
  else throw (range_error "ErrorValue index must be 0 or 1").

Definition set (this : addr) (value_ : T) (error_ : E) : M T E unit :=
  set_value this value_;; set_error this error_.

(** [operator=(T value_)] is declared to return [ErrorValue&]; its body is
    [value = value_;] and nothing else. *)
Definition op_assign_T (this : addr) (value_ : T) : M T E (ErrorValue T E) :=
  set_value this value_;;
  undefined.

(** [min] and [max] are [const], call nothing and cannot throw: they are
    functions of the object. *)
Definition min (x : ErrorValue T E) : E := sub (to_E (value x)) (error x).
Definition max (x : ErrorValue T E) : E := add (to_E (value x)) (error x).

(** *** The default-error policy *)

Definition set_fun (p : addr) (fn : option (T -> E)) : M T E unit :=
  update p (fun x => mkErrorValue (value x) (error x)
                                  (numberDefaultErrorCode x) fn).
Definition set_code (p : addr) (code : Z) : M T E unit :=
  update p (fun x => mkErrorValue (value x) (error x) code
                                  (defaultErrorCalcFunction x)).

(** The [switch] of [setDefaultErrorCalculationMethod], one definition per
    label: the statements from that label to the end of the block. No
    label ends in [break], so each runs into the next. *)
Definition from_default (code : Z) : M T E unit :=
  throw (range_error
           ("Invalid default error function code: " +:+ pretty code)).
Definition from_DEF_ERROR_HALF (this : addr) (code : Z) : M T E unit :=
  set_code this code;; from_default code.
Definition from_DEF_ERROR_ZERO (this : addr) (code : Z) : M T E unit :=
  from_DEF_ERROR_HALF this code.
Definition from_DEF_ERROR_FUNC (this : addr) (code : Z)
    (fn : option (T -> E)) : M T E unit :=
  set_fun this fn;; from_DEF_ERROR_ZERO this code.

Definition setDefaultErrorCalculationMethod (this : addr) (code : Z)
    (fn : option (T -> E)) : M T E unit :=
  if decide (code = DEF_ERROR_FUNC) then from_DEF_ERROR_FUNC this code fn
  else if decide (code = DEF_ERROR_ZERO) then from_DEF_ERROR_ZERO this code
  else if decide (code = DEF_ERROR_HALF) then from_DEF_ERROR_HALF this code
  else from_default code.

Definition getDefaultErrorCalculationMethod (x : ErrorValue T E) : Z :=
  numberDefaultErrorCode x.

Definition getDefaultErrorCalcFunction (x : ErrorValue T E)
    : option (T -> E) :=
  if decide (numberDefaultErrorCode x ≠ DEF_ERROR_FUNC) then None
  else defaultErrorCalcFunction x.
End Members.

Section Promotion.
Context {T E : Type} `{Arith E} `{Value T} `{Convert T E}.
Context `{!Decimal T} `{Pow E}.

(** The first loop of [halfErrorCalcFunction]:
    [while (x % 10 == 0) { c++; x /= 10; }]. It yields the final [c]. *)
Fixpoint strip_zeros (fuel : nat) (c : Z) (x : T) : M T E Z :=
  match fuel with
  | O => timeout
  | S fuel' =>
      r ← defined (rem x (lit 10));
      if eqb r (lit 0)
      then x' ← divide_T x (lit 10); strip_zeros fuel' (c + 1)%Z x'
      else mret c
  end.

(** The second: [while (floor(x) != x) { c++; x *= 10; }]. *)
Fixpoint shift_places (fuel : nat) (c : Z) (x : T) : M T E Z :=
  match fuel with
  | O => timeout
  | S fuel' =>
      if negb (eqb (floor x) x)
      then x' ← defined (v_mul x (lit 10)); shift_places fuel' (c + 1)%Z x'
      else mret c
  end.

(** [return 5*pow(10, --c);] and [return 5*pow(10, -c-1);], taken in the
    arithmetic of [E]. *)
Definition halfErrorCalcFunction (fuel : nat) (x : T) : M T E E :=
  if eqb (floor x) x then
    c ← strip_zeros fuel 0%Z x;
    mret (mul (of_Z 5) (c_pow (of_Z 10) (c - 1)%Z))
  else
    c ← shift_places fuel 0%Z x;
    mret (mul (of_Z 5) (c_pow (of_Z 10) (- c - 1)%Z)).

(** The [switch] has a [return] under each label and no [default]; with
    another code control leaves a value-returning function by its end. *)
Definition defaultNumberError (fuel : nat) (this : addr) (x : T) : M T E E :=
  obj ← load this;
  let code := numberDefaultErrorCode obj in
  if decide (code = DEF_ERROR_ZERO) then mret (of_Z 0)
  else if decide (code = DEF_ERROR_HALF) then halfErrorCalcFunction fuel x
  else if decide (code = DEF_ERROR_FUNC) then
    match defaultErrorCalcFunction obj with
    | Some fn => mret (fn x)
    | None => throw bad_function_call
    end
  else undefined.

(** A bare number on the right of a compound operator is promoted to the
    temporary [ErrorValue(value_, defaultNumberError(value_))]; the body is
    that one expression statement, and again there is no [return]. *)
Definition with_promoted
    (op_assign : addr -> addr -> M T E (ErrorValue T E))
    (fuel : nat) (this : addr) (value_ : T) : M T E (ErrorValue T E) :=
  e ← defaultNumberError fuel this value_;
  tmp ← alloc (ctor value_ e);
  op_assign this tmp;;
  free tmp;;
  undefined.

Definition op_add_assign_T := with_promoted op_add_assign.
Definition op_sub_assign_T := with_promoted op_sub_assign.
Definition op_mul_assign_T := with_promoted op_mul_assign.
Definition op_div_assign_T := with_promoted op_div_assign.

(** [body] with the local [res] in scope: [res] dies when [body] returns
    and when an exception leaves it. *)
Definition scoped {A} (res : addr) (body : M T E A) : M T E A := fun σ =>
  match body σ with
  | (Normal a, σ') => (Normal a, snd (free res σ'))
  | (Throws e, σ') => (Throws e, snd (free res σ'))
  | other => other
  end.

(** The binary operators with a bare number on the right:
    [ErrorValue res = *this; res OP= value_; return res;]. The promotion
    happens inside [res OP= value_] and can throw. *)
Definition binary_T
    (op_assign_T : nat -> addr -> T -> M T E (ErrorValue T E))
    (fuel : nat) (this : addr) (value_ : T) : M T E (ErrorValue T E) :=
  x ← load this;
  res ← alloc x;
  scoped res (op_assign_T fuel res value_;; load res).

Definition op_add_T := binary_T op_add_assign_T.
Definition op_sub_T := binary_T op_sub_assign_T.
Definition op_mul_T := binary_T op_mul_assign_T.
Definition op_div_T := binary_T op_div_assign_T.
End Promotion.
End EV.

(** ** [namespace errmath]

    The functions take [x] by [const] reference and only read it, so the
    model passes the object. They call [<cmath>] on [x.value], so the value
    type is a floating-point type here, and the embedding takes it to be the
    error type: [F] is both. *)
Module errmath.
Section Functions.
Context {F : Type} `{Arith F}.
Context `{Sqrt F} `{Asin F} `{Acos F} `{Atan F} `{Log F} `{Acosh F}.

(** [ErrorValue(asin(x.value), x.error/sqrt(1 - x.value*x.value))] *)
Definition asin (x : ErrorValue F F) : M F F (ErrorValue F F) :=
  e ← divide (error x) (c_sqrt (sub (of_Z 1) (mul (value x) (value x))));
  mret (EV.ctor (c_asin (value x)) e).

(** [ErrorValue(acos(x.value), x.error/sqrt(1 - x.value*x.value))] *)
Definition acos (x : ErrorValue F F) : M F F (ErrorValue F F) :=
  e ← divide (error x) (c_sqrt (sub (of_Z 1) (mul (value x) (value x))));
  mret (EV.ctor (c_acos (value x)) e).

(** [ErrorValue(atan(x.value), x.error/sqrt(1 + x.value*x.value))] *)
Definition atan (x : ErrorValue F F) : M F F (ErrorValue F F) :=
  e ← divide (error x) (c_sqrt (add (of_Z 1) (mul (value x) (value x))));
  mret (EV.ctor (c_atan (value x)) e).

(** [ErrorValue(acosh(x.value), x.error/sqrt(x.value*x.value - 1))] *)
Definition acosh (x : ErrorValue F F) : M F F (ErrorValue F F) :=
  e ← divide (error x) (c_sqrt (sub (mul (value x) (value x)) (of_Z 1)));
  mret (EV.ctor (c_acosh (value x)) e).

(** [ErrorValue(log(x.value), x.error/x.value)] *)
Definition log (x : ErrorValue F F) : M F F (ErrorValue F F) :=
  e ← divide (error x) (value x);
  mret (EV.ctor (c_log (value x)) e).

(** [ErrorValue(sqrt(x.value), x.error/2*sqrt(x.value))]: [/] and [*]
    associate to the left. *)
Definition sqrt (x : ErrorValue F F) : M F F (ErrorValue F F) :=
  q ← divide (error x) (of_Z 2);
  mret (EV.ctor (c_sqrt (value x)) (mul q (c_sqrt (value x)))).
End Functions.
End errmath.

(** ** Instances *)

(** A floating-point type as the value type: its operations all have a
    result, and the conversion to itself does nothing. *)
#[global] Instance floating_Value {F : Type} `{Arith F} : Value F :=
  {| lit := of_Z;
     v_add := fun x y => Some (add x y);
     v_sub := fun x y => Some (sub x y);
     v_mul := fun x y => Some (mul x y);
     v_div := fun x y => Some (div x y);
     v_neg := fun x => Some (neg x);
     v_mul_zero := fun x y _ => ex_intro _ (mul x y) eq_refl |}.

#[global] Instance floating_Convert {F : Type} : Convert F F := fun x => x.

(** IEEE 754 binary64, the arithmetic of [ErrorValue<double, double>]. *)
Module Binary64.
Definition float_of_Z (z : Z) : float :=
  match z with
  | Z0 => PrimFloat.zero
  | Zpos _ => PrimFloat.of_uint63 (Uint63.of_Z z)
  | Zneg _ => PrimFloat.opp (PrimFloat.of_uint63 (Uint63.of_Z (- z)))
  end.

#[global] Instance float_Arith : Arith float :=
  {| of_Z := float_of_Z; add := PrimFloat.add; sub := PrimFloat.sub;
     mul := PrimFloat.mul; div := PrimFloat.div; neg := PrimFloat.opp |}.

#[global] Instance float_Sqrt : Sqrt float := PrimFloat.sqrt.
End Binary64.

(** The 32-bit [int] as the value type, with any error type. A sum, a
    difference, a product or a negation that is not an [int] has no defined
    result; [/] truncates, [%] is its remainder, and both are defined unless
    the divisor is zero or the quotient is that of [INT_MIN] by [-1].
    [floor] of a whole number is that number. *)
Module Int.
Definition in_range (z : Z) : bool :=
  (- 2 ^ 31 <=? z)%Z && (z <? 2 ^ 31)%Z.

Definition checked (z : Z) : option Z :=
  if in_range z then Some z else None.

Definition divisible (x y : Z) : bool :=
  negb ((y =? 0)%Z || ((y =? -1)%Z && (x =? - 2 ^ 31)%Z)).

Definition checked_mul_zero (x y : Z) :
  x = 0%Z \/ y = 0%Z -> is_Some (checked (x * y)).
Proof.
  intros [-> | ->]; [rewrite Z.mul_0_l | rewrite Z.mul_0_r]; by eexists.
Qed.

Definition quotient_by (x y : Z) : option Z :=
  if divisible x y then Some (Z.quot x y) else None.

Definition remainder_by (x y : Z) : option Z :=
  if divisible x y then Some (Z.rem x y) else None.

Definition quotient_by_ten (x : Z) : is_Some (quotient_by x 10).
Proof. by eexists. Qed.

Definition remainder_by_ten (x : Z) : is_Some (remainder_by x 10).
Proof. by eexists. Qed.

#[global] Instance int_Value : Value Z :=
  {| lit := fun z => z;
     v_add := fun x y => checked (x + y);
     v_sub := fun x y => checked (x - y);
     v_mul := fun x y => checked (x * y);
     v_div := quotient_by;
     v_neg := fun x => checked (- x);
     v_mul_zero := checked_mul_zero |}.

#[global] Instance int_Convert {E : Type} `{Arith E} : Convert Z E := of_Z.

#[global] Instance int_Decimal : Decimal Z :=
  {| eqb := Z.eqb;
     floor := fun x => x;
     rem := remainder_by;
     floor_whole := Z.eqb_refl;
     rem_ten := remainder_by_ten;
     div_ten := quotient_by_ten |}.
End Int.

(** Exact arithmetic, for the formulas as such: it has no rounding,
    overflow, infinity or NaN, so it stands for the floating-point types
    only where those are exact as well and no divisor is zero. The rationals
    compute; the reals have the functions of [<cmath>]. *)
Module Rational.
#[global] Instance Q_Arith : Arith Q :=
  {| of_Z := inject_Z; add := Qplus; sub := Qminus; mul := Qmult;
     div := Qdiv; neg := Qopp |}.

#[global] Instance Q_Pow : Pow Q := Qpower.
End Rational.

Module Real.
#[global] Instance R_Arith : Arith R :=
  {| of_Z := IZR; add := Rplus; sub := Rminus; mul := Rmult;
     div := Rdiv; neg := Ropp |}.

Definition R_acosh (x : R) : R := ln (x + R_sqrt.sqrt (x * x - 1)).

#[global] Instance R_Sqrt : Sqrt R := R_sqrt.sqrt.
#[global] Instance R_Asin : Asin R := Ratan.asin.
#[global] Instance R_Acos : Acos R := Ratan.acos.
#[global] Instance R_Atan : Atan R := Ratan.atan.
#[global] Instance R_Log : Log R := ln.
#[global] Instance R_Acosh : Acosh R := R_acosh.
End Real.

(** ** The vocabulary of the statements *)

(** The four arithmetic operators. *)
Inductive binop := Plus | Minus | Times | Over.

Section Effects.
Context {T E : Type} `{Arith E} `{Value T} `{Convert T E}.
Implicit Types (σ : state T E) (x y : ErrorValue T E).

(** [value OP ev.value], if it has a result. *)
Definition result_of (op : binop) : T -> T -> option T :=
  match op with
  | Plus => v_add | Minus => v_sub | Times => v_mul | Over => v_div
  end.

(** [x] with another value. *)
Definition with_value (v : T) x : ErrorValue T E :=
  mkErrorValue v (error x) (numberDefaultErrorCode x)
    (defaultErrorCalcFunction x).

(** The object that [ev] names once [value OP= ev.value] has stored [v]:
    [*this] with its new value in the aliased call [a OP= a], and [y], the
    object it named before, otherwise. *)
Definition seen (a b : addr) (v : T) x y : ErrorValue T E :=
  if decide (a = b) then with_value v x else y.

(** [value*(error/oldV + ev.error/ev.value)] with [value] being [v],
    [error] and [oldV] taken from [x], and [ev] being [y]. *)
Definition propagated (v : T) x y : E :=
  mul (to_E v)
      (add (div (error x) (to_E (value x))) (div (error y) (to_E (value y)))).

(** What the two assignments of a compound operator leave in [*this], which
    was [x], when the first has stored [v] and [ev] then names [y]; the
    lemma [compound_run] below derives this from the member functions. *)
Definition stored (op : binop) (v : T) x y : ErrorValue T E :=
  mkErrorValue v
    match op with
    | Plus | Minus => add (error x) (error y)
    | Times | Over => propagated v x y
    end
    (numberDefaultErrorCode x) (defaultErrorCalcFunction x).

(** What [a OP b] leaves in its local [res], a copy of [x], when [b]
    names [y]: nothing new where the operation on the values has no
    result. *)
Definition left_in_res (op : binop) x y : ErrorValue T E :=
  match result_of op (value x) (value y) with
  | Some v => stored op v x y
  | None => x
  end.

(** The divisors of the error formula, latest first. *)
Definition formula_divisors (op : binop) x y : list E :=
  match op with
  | Plus | Minus => []
  | Times | Over => [to_E (value y); to_E (value x)]
  end.

(** The divisor of [value /= ev.value]. *)
Definition value_divisors (op : binop) y : list E :=
  match op with
  | Over => [to_E (value y)]
  | _ => []
  end.

(** What a call of the setter leaves in [*this], thrown exception or not. *)
Definition configured x (code : Z) (fn : option (T -> E))
    : ErrorValue T E :=
  mkErrorValue (value x) (error x)
    (if decide (code = DEF_ERROR_ZERO \/ code = DEF_ERROR_HALF \/
                code = DEF_ERROR_FUNC)
     then code else numberDefaultErrorCode x)
    (if decide (code = DEF_ERROR_FUNC) then fn
     else defaultErrorCalcFunction x).

(** The four binary operators between objects. *)
Definition operator (op : binop)
    : addr -> addr -> M T E (ErrorValue T E) :=
  match op with
  | Plus => EV.op_add | Minus => EV.op_sub
  | Times => EV.op_mul | Over => EV.op_div
  end.

(** [m] returns an [ErrorValue] with these two components. *)
Definition returns_pair (m : M T E (ErrorValue T E)) σ (v : T) (e : E)
    : Prop :=
  exists r σ', m σ = (Normal r, σ') /\ value r = v /\ error r = e.

(** [m] ends in undefined behaviour, leaving the object [r] at [p] and
    every object that was in the store as it was. *)
Definition ends_undefined_with {A} (m : M T E A) σ (p : addr)
    (r : ErrorValue T E) : Prop :=
  exists σ',
    m σ = (Undefined, σ') /\ objs σ' !! p = Some r /\
    forall q z, objs σ !! q = Some z -> objs σ' !! q = Some z.
End Effects.

(** *** Clients

    To speak about what a sequence of operations can produce: a client is a
    list of statements on the objects of the store. A statement that yields
    an [ErrorValue] initialises a new object with it; the client catches
    what is thrown and goes on with its next statement. The operators [++]
    and [--] are not among the statements: they bind the [ErrorValue&] they
    return to the temporary that [*this += 1] yields, which no compiler
    accepts. *)

Inductive call (T E : Type) :=
  | Construct (value_ : T) (error_ : E) (* [ErrorValue c(value_, error_);] *)
  | CopyOf (a : addr)                   (* [ErrorValue c = +a;] *)
  | Negated (a : addr)                  (* [ErrorValue c = -a;] *)
  | Compound (op : binop) (a b : addr)  (* [a OP= b;] *)
  | CompoundT (op : binop) (a : addr) (k : T)   (* [a OP= k;] *)
  | Binary (op : binop) (a b : addr)    (* [ErrorValue c = a OP b;] *)
  | BinaryT (op : binop) (a : addr) (k : T)     (* [ErrorValue c = a OP k;] *)
  | SetTo (a : addr) (value_ : T) (error_ : E)  (* [a.set(value_, error_);] *)
  | AssignT (a : addr) (value_ : T)     (* [a = value_;] *)
  | Configure (a : addr) (code : Z) (fn : option (T -> E)).
Arguments Construct {T E} _ _.
Arguments CopyOf {T E} _.
Arguments Negated {T E} _.
Arguments Compound {T E} _ _ _.
Arguments CompoundT {T E} _ _ _.
Arguments Binary {T E} _ _ _.
Arguments BinaryT {T E} _ _ _.
Arguments SetTo {T E} _ _ _.
Arguments AssignT {T E} _ _.
Arguments Configure {T E} _ _ _.

Section Clients.
Context {T E : Type} `{Arith E} `{Value T} `{Convert T E}.
Context `{!Decimal T} `{Pow E}.

Definition compound (op : binop)
    : addr -> addr -> M T E (ErrorValue T E) :=
  match op with
  | Plus => EV.op_add_assign
  | Minus => EV.op_sub_assign
  | Times => EV.op_mul_assign
  | Over => EV.op_div_assign
  end.

Definition compound_T (op : binop)
    : nat -> addr -> T -> M T E (ErrorValue T E) :=
  match op with
  | Plus => EV.op_add_assign_T
  | Minus => EV.op_sub_assign_T
  | Times => EV.op_mul_assign_T
  | Over => EV.op_div_assign_T
  end.

Definition initialise (m : M T E (ErrorValue T E)) : M T E unit :=
  r ← m; alloc r;; mret tt.

(** An expression statement drops the value of its expression. *)
Definition discard (m : M T E (ErrorValue T E)) : M T E unit :=
  m;; mret tt.

Definition exec (fuel : nat) (c : call T E) : M T E unit :=
  match c with
  | Construct value_ error_ => initialise (mret (EV.ctor value_ error_))
  | CopyOf a => initialise (EV.op_pos a)
  | Negated a => initialise (EV.op_neg a)
  | Compound op a b => discard (compound op a b)
  | CompoundT op a k => discard (compound_T op fuel a k)
  | Binary op a b => initialise (EV.binary (compound op) a b)
  | BinaryT op a k => initialise (EV.binary_T (compound_T op) fuel a k)
  | SetTo a value_ error_ => EV.set a value_ error_
  | AssignT a value_ => discard (EV.op_assign_T a value_)
  | Configure a code fn => EV.setDefaultErrorCalculationMethod a code fn
  end.

(** The store after the client, which stops where a statement has no
    defined or no finite behaviour. *)
Fixpoint run (fuel : nat) (cs : list (call T E)) (σ : state T E)
    : state T E :=
  match cs with
  | [] => σ
  | c :: cs' =>
      match exec fuel c σ with
      | (Normal _, σ') | (Throws _, σ') => run fuel cs' σ'
      | (_, σ') => σ'
      end
  end.
End Clients.

(** *** Invariants of the store *)

Section Sound.
Context {T E : Type} (P : ErrorValue T E -> Prop) (D : E -> Prop).

(** Every live object satisfies [P] and every divisor so far [D]. *)
Definition sound (σ : state T E) : Prop :=
  map_Forall (fun _ x => P x) (objs σ) /\ Forall D (divisors σ).

(** [m] keeps the store sound, and what it returns satisfies [Q]. *)
Definition keeps {A} (m : M T E A) (Q : A -> Prop) : Prop :=
  forall σ, sound σ ->
    sound (snd (m σ)) /\ forall a, fst (m σ) = Normal a -> Q a.
End Sound.

(** The policy code is one of the three the class knows. *)
Definition valid_code {T E} (x : ErrorValue T E) : Prop :=
  numberDefaultErrorCode x = DEF_ERROR_ZERO \/
  numberDefaultErrorCode x = DEF_ERROR_HALF \/
  numberDefaultErrorCode x = DEF_ERROR_FUNC.

(** Under the policy of [*this] and with this much fuel, the bare number
    [x] is promoted with an error equal to [e]. *)
Definition promoted (fuel : nat) (this : addr) (σ : state Z Q) (x : Z)
    (e : Q) : Prop :=
  exists e' σ',
    EV.defaultNumberError fuel this x σ = (Normal e', σ') /\ (e' == e)%Q.

(** ** Objects and stores to run the operations on *)

(** A store holding [x] at address 1 and [y] at address 2. *)
Definition two_objects {T E} (x y : ErrorValue T E) : state T E :=
  mkState {[ 1%positive := x; 2%positive := y ]} [].

Definition empty_store {T E} : state T E := mkState ∅ [].

(** [ErrorValue<int, E>] with exact rationals for [E]. *)
Module SampleInt.
Import Rational Int.
Definition six : ErrorValue Z Q := EV.ctor 6%Z 1.
Definition three : ErrorValue Z Q := EV.ctor 3%Z (1 # 2).
(** [six] after a call of the setter with [DEF_ERROR_HALF]. *)
Definition six_half_unit : ErrorValue Z Q :=
  mkErrorValue 6%Z 1 DEF_ERROR_HALF None.
(** [six] with the policy [DEF_ERROR_FUNC] and no function, as the setter
    leaves it when called with [nullptr]. *)
Definition six_no_function : ErrorValue Z Q :=
  mkErrorValue 6%Z 1 DEF_ERROR_FUNC None.
(** [three] with that policy. *)
Definition three_no_function : ErrorValue Z Q :=
  mkErrorValue 3%Z (1 # 2) DEF_ERROR_FUNC None.
(** Two objects, a policy for each, a negation, a [set], and then
    arithmetic, at which the client stops. *)
Definition client : list (call Z Q) :=
  [ Construct 6%Z 1; Construct 3%Z (1 # 2);
    Configure 1%positive DEF_ERROR_HALF None;
    Configure 2%positive DEF_ERROR_FUNC None;
    Negated 1%positive; SetTo 3%positive 7%Z 2;
    CompoundT Plus 1%positive 100%Z; Binary Times 1%positive 2%positive ].
End SampleInt.

(** [ErrorValue<Q, Q>], exact rationals for both types. *)
Module Sample.
Import Rational.
Definition six : ErrorValue Q Q := EV.ctor 6 1.
Definition three : ErrorValue Q Q := EV.ctor 3 (1 # 2).
Definition two : ErrorValue Q Q := EV.ctor 2 1.
Definition minus_one : ErrorValue Q Q := EV.ctor (-1) 0.
(** [six] with the policy [DEF_ERROR_FUNC] and a tenth as the function. *)
Definition six_tenth : ErrorValue Q Q :=
  mkErrorValue 6 1 DEF_ERROR_FUNC (Some (fun k => k / 10)%Q).
End Sample.

(** [ErrorValue<double, double>]. *)
Module Binary64Sample.
Import Binary64.
Definition one : ErrorValue float float := EV.ctor (of_Z 1) (of_Z 0).
Definition zero : ErrorValue float float := EV.ctor (of_Z 0) (of_Z 0).
Definition nought : ErrorValue float float :=
  EV.ctor (of_Z 0) (div (of_Z 1) (of_Z 2)).
Definition two : ErrorValue float float := EV.ctor (of_Z 2) (of_Z 1).
Definition three : ErrorValue float float := EV.ctor (of_Z 3) (of_Z 1).
Definition four : ErrorValue float float := EV.ctor (of_Z 4) (of_Z 1).
Definition minus_one : ErrorValue float float :=
  EV.ctor (of_Z (-1)) (of_Z 0).
Definition three_quarters : ErrorValue float float :=
  EV.ctor (div (of_Z 3) (of_Z 4)) (of_Z 5).
Definition beyond_one : ErrorValue float float := EV.ctor (of_Z 2) (of_Z 1).
Definition negative_error : ErrorValue float float :=
  EV.ctor (of_Z 0) (of_Z (-1)).
End Binary64Sample.

Module SampleR.
Import Real.
Local Open Scope R_scope.
Definition four : ErrorValue R R := EV.ctor 4 1.
Definition three_quarters : ErrorValue R R := EV.ctor (3 / 4) 5.
Definition beyond_one : ErrorValue R R := EV.ctor 2 (1 / 10).
End SampleR.

(** * Properties *)

(** ** The embedding computes *)

(** [halfErrorCalcFunction(100)] on [int] is [50], after two divisions
    by 10. *)
Example half_error_of_hundred :
  EV.halfErrorCalcFunction 5 100%Z (empty_store : state Z Q) =
    (Normal 50%Q, mkState ∅ [10%Q; 10%Q]).
Proof. vm_compute. reflexivity. Qed.

(** Without fuel for the third test of the loop it has no result. *)
Example half_error_of_hundred_short :
  fst (EV.halfErrorCalcFunction 2 100%Z (empty_store : state Z Q)) = Timeout.
Proof. vm_compute. reflexivity. Qed.

(** [x += 100] on [int] with the policy [DEF_ERROR_HALF] adds [100 ± 50] to
    [6 ± 1] and then reaches the end of [operator+=]; the temporary is the
    third object. *)
Example add_hundred_to_six :
  EV.op_add_assign_T 5 1%positive 100%Z
      (two_objects SampleInt.six_half_unit SampleInt.three) =
    (Undefined,
     mkState {[ 1%positive := mkErrorValue 106%Z 51%Q DEF_ERROR_HALF None;
                2%positive := SampleInt.three;
                3%positive := EV.ctor 100%Z 50%Q ]} [10%Q; 10%Q]).
Proof. vm_compute. reflexivity. Qed.

(** An [int] sum that is not an [int] has no defined result. *)
Example sum_beyond_int :
  EV.op_add_assign 1%positive 1%positive
      (two_objects (EV.ctor (2 ^ 30)%Z 1%Q) SampleInt.three) =
    (Undefined, two_objects (EV.ctor (2 ^ 30)%Z 1%Q) SampleInt.three).
Proof. vm_compute. reflexivity. Qed.

(** ** How the operations act on the store *)

Section Laws.
Context {T E : Type} `{Arith E} `{Value T} `{Convert T E}.
Implicit Types (σ : state T E) (p a b : addr) (x y : ErrorValue T E).

Lemma bind_normal {A B} (m : M T E A) (k : A -> M T E B) σ r σ' :
  m σ = (Normal r, σ') -> (m ≫= k) σ = k r σ'.
Proof. intros Hm. unfold mbind, M_bind. by rewrite Hm. Qed.

Lemma bind_undefined {A B} (m : M T E A) (k : A -> M T E B) σ σ' :
  m σ = (Undefined, σ') -> (m ≫= k) σ = (Undefined, σ').
Proof. intros Hm. unfold mbind, M_bind. by rewrite Hm. Qed.

Lemma bind_throws {A B} (m : M T E A) (k : A -> M T E B) σ e σ' :
  m σ = (Throws e, σ') -> (m ≫= k) σ = (Throws e, σ').
Proof. intros Hm. unfold mbind, M_bind. by rewrite Hm. Qed.

Lemma bind_timeout {A B} (m : M T E A) (k : A -> M T E B) σ :
  fst (m σ) = Timeout -> fst ((m ≫= k) σ) = Timeout.
Proof.
  intros Hm. unfold mbind, M_bind. by destruct (m σ) as [[] ?]; simpl in *.
Qed.

Lemma load_live σ p x :
  objs σ !! p = Some x -> load p σ = (Normal x, σ).
Proof. intros Hp. unfold load. by rewrite Hp. Qed.

Lemma update_live σ p x f :
  objs σ !! p = Some x ->
  update p f σ = (Normal tt, mkState (<[p := f x]> (objs σ)) (divisors σ)).
Proof. intros Hp. unfold update. by rewrite Hp. Qed.

Lemma get_value_live σ p x :
  objs σ !! p = Some x -> get_value p σ = (Normal (value x), σ).
Proof.
  intros Hp. unfold get_value.
  by rewrite (bind_normal _ _ _ _ _ (load_live _ _ _ Hp)).
Qed.

Lemma get_error_live σ p x :
  objs σ !! p = Some x -> get_error p σ = (Normal (error x), σ).
Proof.
  intros Hp. unfold get_error.
  by rewrite (bind_normal _ _ _ _ _ (load_live _ _ _ Hp)).
Qed.

Lemma defined_run {A} σ (r : option A) (a : A) :
  r = Some a -> defined r σ = (Normal a, σ).
Proof. by intros ->. Qed.

Lemma divide_run σ (u v : E) :
  divide u v σ = (Normal (div u v), mkState (objs σ) (v :: divisors σ)).
Proof. reflexivity. Qed.

Lemma divide_T_run σ (u v q : T) :
  v_div u v = Some q ->
  divide_T u v σ = (Normal q, mkState (objs σ) (to_E v :: divisors σ)).
Proof. intros Hq. unfold divide_T. by rewrite Hq. Qed.

Lemma divide_T_stuck σ (u v : T) :
  v_div u v = None ->
  divide_T u v σ = (Undefined, mkState (objs σ) (to_E v :: divisors σ)).
Proof. intros Hq. unfold divide_T. by rewrite Hq. Qed.

Lemma alloc_run σ x :
  alloc x σ = (Normal (fresh (dom (objs σ))),
               mkState (<[fresh (dom (objs σ)) := x]> (objs σ)) (divisors σ)).
Proof. reflexivity. Qed.

Lemma free_run σ p :
  free p σ = (Normal tt, mkState (delete p (objs σ)) (divisors σ)).
Proof. reflexivity. Qed.

Lemma fresh_dead σ : objs σ !! fresh (dom (objs σ)) = None.
Proof. apply not_elem_of_dom, is_fresh. Qed.

Lemma live_not_fresh σ p x :
  objs σ !! p = Some x -> fresh (dom (objs σ)) <> p.
Proof. intros Hp Heq. rewrite <- Heq, fresh_dead in Hp. discriminate. Qed.
End Laws.

(** A lookup in a store that went through some assignments. *)
Ltac live :=
  simpl;
  repeat first [ rewrite lookup_insert_eq
               | rewrite lookup_insert_ne by (done || eauto using live_not_fresh) ];
  first [ eassumption | reflexivity ].

(** Run the next statement of a member function. *)
Ltac mstep :=
  first
    [ erewrite bind_normal;
      [ | first [ apply get_value_live; live
                | apply get_error_live; live
                | apply load_live; live
                | apply update_live; live
                | apply divide_run
                | apply divide_T_run; first [ eassumption | reflexivity ]
                | apply defined_run; first [ eassumption | reflexivity ]
                | apply alloc_run
                | apply free_run ] ] ];
  cbv beta;
  cbn [objs divisors value error numberDefaultErrorCode
       defaultErrorCalcFunction].

Section Compound.
Context {T E : Type} `{Arith E} `{Value T} `{Convert T E}.
Implicit Types (σ : state T E) (p a b : addr) (x y : ErrorValue T E).

(** A compound operator of which the operation on the values has the
    result [v]: both assignments are carried out, then control reaches the
    end of the function. *)
Lemma compound_run op σ a b x y v :
  objs σ !! a = Some x -> objs σ !! b = Some y ->
  result_of op (value x) (value y) = Some v ->
  compound op a b σ =
    (Undefined,
     mkState (<[a := stored op v x (seen a b v x y)]> (objs σ))
             (formula_divisors op x (seen a b v x y) ++
              value_divisors op y ++ divisors σ)).
Proof.
  intros Ha Hb Hv. unfold seen.
  destruct (decide (a = b)) as [<- | Hab].
  - assert (y = x) as -> by congruence.
    destruct op; cbn [compound result_of] in *;
      unfold EV.op_add_assign, EV.op_sub_assign, EV.op_mul_assign,
        EV.op_div_assign, set_value, set_error;
      repeat mstep; unfold undefined; rewrite insert_insert_eq; reflexivity.
  - destruct op; cbn [compound result_of] in *;
      unfold EV.op_add_assign, EV.op_sub_assign, EV.op_mul_assign,
        EV.op_div_assign, set_value, set_error;
      repeat mstep; unfold undefined; rewrite insert_insert_eq; reflexivity.
Qed.
End Compound.

Section Binary.
Context {T E : Type} `{Arith E} `{Value T} `{Convert T E}.
Implicit Types (σ : state T E) (p a b : addr) (x y : ErrorValue T E).

Lemma compound_stuck op σ a b x y :
  objs σ !! a = Some x -> objs σ !! b = Some y ->
  result_of op (value x) (value y) = None ->
  compound op a b σ =
    (Undefined, mkState (objs σ) (value_divisors op y ++ divisors σ)).
Proof.
  intros Ha Hb Hv.
  destruct op; cbn [compound result_of value_divisors app] in *;
    unfold EV.op_add_assign, EV.op_sub_assign, EV.op_mul_assign,
      EV.op_div_assign;
    repeat mstep.
  1-3: apply bind_undefined; unfold defined; rewrite Hv; by destruct σ.
  apply bind_undefined. by apply divide_T_stuck.
Qed.

Lemma operator_unfold op a b :
  operator op a b = EV.binary (compound op) a b.
Proof. by destruct op. Qed.

(** [res] is a new object, so [res OP= ev] is never the aliased call; it
    does not return, and [res] holds what it has stored. *)
Lemma operator_run op σ a b x y v :
  objs σ !! a = Some x -> objs σ !! b = Some y ->
  result_of op (value x) (value y) = Some v ->
  operator op a b σ =
    (Undefined,
     mkState (<[fresh (dom (objs σ)) := stored op v x y]> (objs σ))
             (formula_divisors op x y ++ value_divisors op y ++ divisors σ)).
Proof.
  intros Ha Hb Hv. rewrite operator_unfold. unfold EV.binary.
  do 2 mstep.
  erewrite bind_undefined; [reflexivity|].
  erewrite (compound_run op _ _ b x y v); [ | live | live | done ].
  unfold seen. rewrite decide_False by eauto using live_not_fresh.
  cbn [objs divisors]. by rewrite insert_insert_eq.
Qed.

Lemma operator_stuck op σ a b x y :
  objs σ !! a = Some x -> objs σ !! b = Some y ->
  result_of op (value x) (value y) = None ->
  operator op a b σ =
    (Undefined,
     mkState (<[fresh (dom (objs σ)) := x]> (objs σ))
             (value_divisors op y ++ divisors σ)).
Proof.
  intros Ha Hb Hv. rewrite operator_unfold. unfold EV.binary.
  do 2 mstep.
  erewrite bind_undefined; [reflexivity|].
  by erewrite (compound_stuck op _ _ b x y); [ | live | live | done ].
Qed.

Lemma operator_ends_undefined op σ a b x y :
  objs σ !! a = Some x -> objs σ !! b = Some y ->
  ends_undefined_with (operator op a b) σ (fresh (dom (objs σ)))
    (left_in_res op x y).
Proof.
  intros Ha Hb. unfold ends_undefined_with, left_in_res.
  destruct (result_of op (value x) (value y)) as [v|] eqn:Hv.
  - rewrite (operator_run op σ a b x y v Ha Hb Hv).
    eexists. split; [reflexivity|]. cbn [objs].
    split; [apply lookup_insert_eq|].
    intros q z Hq. rewrite lookup_insert_ne; eauto using live_not_fresh.
  - rewrite (operator_stuck op σ a b x y Ha Hb Hv).
    eexists. split; [reflexivity|]. cbn [objs].
    split; [apply lookup_insert_eq|].
    intros q z Hq. rewrite lookup_insert_ne; eauto using live_not_fresh.
Qed.
End Binary.

Section Policy.
Context {T E : Type} `{Arith E} `{Value T} `{Convert T E}.
Implicit Types (σ : state T E) (this : addr) (x : ErrorValue T E).

(** C1 (as the code has it). Every call of
    [setDefaultErrorCalculationMethod] on a live object ends in
    [std::range_error]: the codes 0, 1 and 2 are stored first (and with 2
    the function, null or not), and then control runs into the [default]
    label like any other code. *)
Theorem setDefaultErrorCalculationMethod_always_throws σ this x code fn :
  objs σ !! this = Some x ->
  exists σ',
    EV.setDefaultErrorCalculationMethod this code fn σ =
      (Throws (range_error
                 ("Invalid default error function code: " +:+ pretty code)),
       σ') /\
    objs σ' !! this = Some (configured x code fn) /\
    (forall p, p <> this -> objs σ' !! p = objs σ !! p).
Proof.
  intros Hx. unfold EV.setDefaultErrorCalculationMethod, configured.
  unfold EV.from_DEF_ERROR_FUNC, EV.from_DEF_ERROR_ZERO,
    EV.from_DEF_ERROR_HALF, EV.from_default, EV.set_fun, EV.set_code.
  unfold DEF_ERROR_FUNC, DEF_ERROR_ZERO, DEF_ERROR_HALF.
  repeat case_decide; try lia.
  - do 2 mstep. eexists. split; [reflexivity|].
    rewrite insert_insert_eq. cbn [objs].
    split; [by rewrite lookup_insert_eq | intros; by rewrite lookup_insert_ne].
  - mstep. eexists. split; [reflexivity|]. cbn [objs].
    split; [by rewrite lookup_insert_eq | intros; by rewrite lookup_insert_ne].
  - mstep. eexists. split; [reflexivity|]. cbn [objs].
    split; [by rewrite lookup_insert_eq | intros; by rewrite lookup_insert_ne].
  - eexists. split; [reflexivity|]. split; [|done].
    rewrite Hx. by destruct x.
Qed.
End Policy.

(** C1 at a concrete input: [ErrorValue(6, 1)] asked for the policy [Zero]. *)
Lemma setDefaultErrorCalculationMethod_Zero_throws :
  exists σ',
    EV.setDefaultErrorCalculationMethod 1%positive DEF_ERROR_ZERO None
        (two_objects Sample.six Sample.three) =
      (Throws (range_error "Invalid default error function code: 0"), σ') /\
    objs σ' !! 1%positive =
      Some (configured Sample.six DEF_ERROR_ZERO None) /\
    (forall p, p <> 1%positive ->
       objs σ' !! p = objs (two_objects Sample.six Sample.three) !! p).
Proof.
  apply (setDefaultErrorCalculationMethod_always_throws
           (two_objects Sample.six Sample.three) 1%positive Sample.six
           DEF_ERROR_ZERO None).
  reflexivity.
Defined.

Section Frame.
Context {T E : Type} `{Arith E} `{Value T} `{Convert T E}.
Implicit Types (σ : state T E) (a b : addr) (x y : ErrorValue T E).

(** C9 (as the code has it). [a + b], [a - b], [a * b] and [a / b] copy
    [a] to the local [res] and run [res OP= b], which has no [return]
    statement: none of the four returns an [ErrorValue]. Up to there [a],
    [b] and every other object -- [a] and [b] may be the same one -- are as
    they were, with value, error and default-error policy, and the result
    is in [res]. *)
Theorem binary_operators_leave_operands σ a b x y :
  objs σ !! a = Some x -> objs σ !! b = Some y ->
  forall op, exists σ',
    operator op a b σ = (Undefined, σ') /\
    objs σ' !! a = Some x /\ objs σ' !! b = Some y /\
    (forall q z, objs σ !! q = Some z -> objs σ' !! q = Some z) /\
    objs σ' !! fresh (dom (objs σ)) = Some (left_in_res op x y).
Proof.
  intros Ha Hb op.
  destruct (operator_ends_undefined op σ a b x y Ha Hb)
    as (σ' & Hrun & Hres & Hframe).
  exists σ'. eauto 10.
Qed.

(** C10. [a *= b] and [a * b] do not test the values: no exception is
    thrown, and the two quotients of the error formula are taken with the
    divisors [value(a)] (as it was before the call) and [value(b)]; so with
    a zero value a division by zero is evaluated. In the aliased [a *= a]
    the first divisor is still the old [value(a)]. *)
Theorem multiplication_divides_unguarded σ a b x y :
  objs σ !! a = Some x -> objs σ !! b = Some y ->
  value x = lit 0 \/ value y = lit 0 ->
  (exists o σ' d2,
      EV.op_mul_assign a b σ = (o, σ') /\
      (forall e, o <> Throws e) /\
      divisors σ' = d2 :: to_E (value x) :: divisors σ /\
      (a <> b -> d2 = to_E (value y)) /\
      (value x = lit 0 \/ d2 = to_E (lit 0))) /\
  (exists o σ',
      EV.op_mul a b σ = (o, σ') /\
      (forall e, o <> Throws e) /\
      divisors σ' = to_E (value y) :: to_E (value x) :: divisors σ /\
      In (to_E (lit 0)) (divisors σ')).
Proof.
  intros Ha Hb Hzero.
  destruct (v_mul_zero (value x) (value y) Hzero) as [v Hv].
  change (EV.op_mul_assign a b σ) with (compound Times a b σ).
  change (EV.op_mul a b σ) with (operator Times a b σ).
  split.
  - rewrite (compound_run Times σ a b x y v Ha Hb Hv).
    eexists _, _, _. split; [reflexivity|]. split; [done|].
    split; [reflexivity|]. unfold seen. split.
    + intros Hab. by rewrite decide_False.
    + case_decide as Hab; [|destruct Hzero as [Hx | Hy]; [by left|]].
      * left. subst b. assert (y = x) as -> by congruence.
        by destruct Hzero.
      * right. by rewrite Hy.
  - rewrite (operator_run Times σ a b x y v Ha Hb Hv).
    eexists _, _. split; [reflexivity|]. split; [done|].
    split; [reflexivity|].
    cbn [divisors formula_divisors value_divisors app].
    destruct Hzero as [<- | <-]; simpl; auto.
Qed.

(** C2 (as the code has it). With [value(b) == 0] neither [a / b] nor
    [a /= b] throws. The value is divided by the zero, unchecked, and -- if
    that division has a result [q] in [T], as it has in a floating-point
    type -- [q] is stored with the error [q*(error/oldV + ev.error/ev.value)]
    that the formula gives for it: by [a / b] in its local copy, with
    [ev.value] the zero, and by [a /= b] in [a], where [ev.value] is the
    zero again unless [b] is [a] itself, in which case it is [q]. Every
    other object is left as it was; without a result of the division so is
    [a]. Then control reaches the end of [operator/=]. *)
Theorem division_by_zero_unchecked σ a b x y :
  objs σ !! a = Some x -> objs σ !! b = Some y ->
  value y = lit 0 ->
  (exists σ' r,
      EV.op_div a b σ = (Undefined, σ') /\
      In (to_E (lit 0)) (divisors σ') /\
      (forall q z, objs σ !! q = Some z -> objs σ' !! q = Some z) /\
      objs σ' !! fresh (dom (objs σ)) = Some r /\
      match v_div (value x) (lit 0) with
      | Some q =>
          value r = q /\
          error r = mul (to_E q)
                        (add (div (error x) (to_E (value x)))
                             (div (error y) (to_E (lit 0))))
      | None => r = x
      end) /\
  (exists σ' r,
      EV.op_div_assign a b σ = (Undefined, σ') /\
      In (to_E (lit 0)) (divisors σ') /\
      (forall p, p <> a -> objs σ' !! p = objs σ !! p) /\
      objs σ' !! a = Some r /\
      match v_div (value x) (lit 0) with
      | Some q =>
          value r = q /\
          error r = mul (to_E q)
                        (add (div (error x) (to_E (value x)))
                             (div (error y)
                                  (to_E (if decide (a = b) then q
                                         else lit 0))))
      | None => r = x
      end).
Proof.
  intros Ha Hb Hzero.
  change (EV.op_div a b σ) with (operator Over a b σ).
  change (EV.op_div_assign a b σ) with (compound Over a b σ).
  pose proof (eq_refl : result_of Over (value x) (value y) =
                        v_div (value x) (value y)) as Hres.
  rewrite Hzero in Hres at 2.
  destruct (v_div (value x) (lit 0)) as [q|] eqn:Hq.
  - rewrite (operator_run Over σ a b x y q Ha Hb Hres),
      (compound_run Over σ a b x y q Ha Hb Hres).
    cbn [formula_divisors value_divisors app].
    split; eexists _, _; (split; [reflexivity|]); cbn [objs divisors].
    + split; [rewrite Hzero; by left|].
      split; [intros p z Hp; rewrite lookup_insert_ne;
              eauto using live_not_fresh|].
      split; [apply lookup_insert_eq|].
      cbn [stored value error]. unfold propagated. by rewrite Hzero.
    + split; [rewrite Hzero; right; right; by left|].
      split; [intros p Hp; by rewrite lookup_insert_ne|].
      split; [apply lookup_insert_eq|].
      cbn [stored value error]. unfold propagated, seen.
      case_decide as Hab; cbn [with_value value error]; [|by rewrite Hzero].
      subst b. by assert (y = x) as -> by congruence.
  - rewrite (operator_stuck Over σ a b x y Ha Hb Hres),
      (compound_stuck Over σ a b x y Ha Hb Hres).
    cbn [value_divisors app].
    split; eexists _, _; (split; [reflexivity|]); cbn [objs divisors].
    + split; [rewrite Hzero; by left|].
      split; [intros p z Hp; rewrite lookup_insert_ne;
              eauto using live_not_fresh|].
      split; [apply lookup_insert_eq | done].
    + split; [rewrite Hzero; by left|]. by repeat split.
Qed.
End Frame.

(** C9 at a concrete input: [(2 ± 1) * (3 ± 1)] and [(2 ± 1) / (3 ± 1)]
    in binary64. *)
Lemma binary_operators_leave_two_and_three :
  (exists σ',
      operator Times 1%positive 2%positive
          (two_objects Binary64Sample.two Binary64Sample.three) =
        (Undefined, σ') /\
      objs σ' !! 1%positive = Some Binary64Sample.two /\
      objs σ' !! 2%positive = Some Binary64Sample.three /\
      (forall q z,
         objs (two_objects Binary64Sample.two Binary64Sample.three) !! q =
           Some z ->
         objs σ' !! q = Some z) /\
      objs σ' !! fresh (dom (objs (two_objects Binary64Sample.two
                                     Binary64Sample.three))) =
        Some (left_in_res Times Binary64Sample.two Binary64Sample.three)) /\
  (exists σ',
      operator Over 1%positive 2%positive
          (two_objects Binary64Sample.two Binary64Sample.three) =
        (Undefined, σ') /\
      objs σ' !! 1%positive = Some Binary64Sample.two /\
      objs σ' !! 2%positive = Some Binary64Sample.three /\
      (forall q z,
         objs (two_objects Binary64Sample.two Binary64Sample.three) !! q =
           Some z ->
         objs σ' !! q = Some z) /\
      objs σ' !! fresh (dom (objs (two_objects Binary64Sample.two
                                     Binary64Sample.three))) =
        Some (left_in_res Over Binary64Sample.two Binary64Sample.three)).
Proof.
  split.
  - exact (binary_operators_leave_operands
             (two_objects Binary64Sample.two Binary64Sample.three)
             1%positive 2%positive Binary64Sample.two Binary64Sample.three
             eq_refl eq_refl Times).
  - exact (binary_operators_leave_operands
             (two_objects Binary64Sample.two Binary64Sample.three)
             1%positive 2%positive Binary64Sample.two Binary64Sample.three
             eq_refl eq_refl Over).
Defined.

(** C10 at a concrete input: [(0 ± 1/2) * (3 ± 1)] in binary64 divides
    [1/2] by [0]. *)
Lemma multiplication_by_nought_divides_by_zero :
  (exists o σ' d2,
      EV.op_mul_assign 1%positive 2%positive
          (two_objects Binary64Sample.nought Binary64Sample.three) =
        (o, σ') /\
      (forall e, o <> Throws e) /\
      divisors σ' = [d2; to_E (value Binary64Sample.nought)] /\
      (1%positive <> 2%positive -> d2 = to_E (value Binary64Sample.three)) /\
      (value Binary64Sample.nought = lit 0 \/ d2 = to_E (lit 0 : float))) /\
  (exists o σ',
      EV.op_mul 1%positive 2%positive
          (two_objects Binary64Sample.nought Binary64Sample.three) =
        (o, σ') /\
      (forall e, o <> Throws e) /\
      divisors σ' = [to_E (value Binary64Sample.three);
                     to_E (value Binary64Sample.nought)] /\
      In (to_E (lit 0 : float)) (divisors σ')).
Proof.
  exact (multiplication_divides_unguarded
           (two_objects Binary64Sample.nought Binary64Sample.three)
           1%positive 2%positive Binary64Sample.nought Binary64Sample.three
           eq_refl eq_refl (or_introl eq_refl)).
Defined.

(** C2 at a concrete input: [(1 ± 0) / (0 ± 0)] in binary64. *)
Lemma one_divided_by_zero :
  (exists σ' r,
      EV.op_div 1%positive 2%positive
          (two_objects Binary64Sample.one Binary64Sample.zero) =
        (Undefined, σ') /\
      In (to_E (lit 0 : float)) (divisors σ') /\
      (forall q z,
         objs (two_objects Binary64Sample.one Binary64Sample.zero) !! q =
           Some z ->
         objs σ' !! q = Some z) /\
      objs σ' !! fresh (dom (objs (two_objects Binary64Sample.one
                                     Binary64Sample.zero))) = Some r /\
      match v_div (value Binary64Sample.one) (lit 0) with
      | Some q =>
          value r = q /\
          error r = mul (to_E q)
                        (add (div (error Binary64Sample.one)
                                  (to_E (value Binary64Sample.one)))
                             (div (error Binary64Sample.zero)
                                  (to_E (lit 0 : float))))
      | None => r = Binary64Sample.one
      end) /\
  (exists σ' r,
      EV.op_div_assign 1%positive 2%positive
          (two_objects Binary64Sample.one Binary64Sample.zero) =
        (Undefined, σ') /\
      In (to_E (lit 0 : float)) (divisors σ') /\
      (forall p, p <> 1%positive ->
         objs σ' !! p =
           objs (two_objects Binary64Sample.one Binary64Sample.zero) !! p) /\
      objs σ' !! 1%positive = Some r /\
      match v_div (value Binary64Sample.one) (lit 0) with
      | Some q =>
          value r = q /\
          error r = mul (to_E q)
                        (add (div (error Binary64Sample.one)
                                  (to_E (value Binary64Sample.one)))
                             (div (error Binary64Sample.zero)
                                  (to_E (if decide (1%positive = 2%positive)
                                         then q else lit 0))))
      | None => r = Binary64Sample.one
      end).
Proof.
  exact (division_by_zero_unchecked
           (two_objects Binary64Sample.one Binary64Sample.zero)
           1%positive 2%positive Binary64Sample.one Binary64Sample.zero
           eq_refl eq_refl eq_refl).
Defined.

(** Against C2 as it is stated, in binary64, with [b = 0 ± 0]: nothing is
    thrown. [(1 ± 0) /= b] stores [inf ± nan] in its left operand, and
    [(1 ± 0) / b] in its local copy, the third object; [b /= b] stores
    [nan ± nan]. *)
Lemma division_by_zero_stores_inf_nan :
  value Binary64Sample.zero = lit 0 /\
  (forall e,
     fst (EV.op_div 1%positive 2%positive
            (two_objects Binary64Sample.one Binary64Sample.zero))
       <> Throws e) /\
  objs (snd (EV.op_div 1%positive 2%positive
               (two_objects Binary64Sample.one Binary64Sample.zero)))
    !! 3%positive = Some (EV.ctor infinity nan) /\
  (forall e,
     fst (EV.op_div_assign 1%positive 2%positive
            (two_objects Binary64Sample.one Binary64Sample.zero))
       <> Throws e) /\
  objs (snd (EV.op_div_assign 1%positive 2%positive
               (two_objects Binary64Sample.one Binary64Sample.zero)))
    !! 1%positive = Some (EV.ctor infinity nan) /\
  objs (snd (EV.op_div_assign 2%positive 2%positive
               (two_objects Binary64Sample.one Binary64Sample.zero)))
    !! 2%positive = Some (EV.ctor nan nan).
Proof. vm_compute. repeat split; discriminate. Qed.

Section ErrmathRuns.
Context {F : Type} `{Arith F}.
Context `{Sqrt F} `{Asin F} `{Acos F} `{Log F} `{Acosh F}.
Implicit Types (σ : state F F) (x : ErrorValue F F).

(** C4 (as the code has it). [asin], [acos], [log] and [acosh] check
    nothing: for every [x], inside the domain of the function or not, they
    return the pair that [<cmath>] and the quotient give. *)
Theorem errmath_checks_no_domain σ x :
  returns_pair (errmath.asin x) σ (c_asin (value x))
    (div (error x) (c_sqrt (sub (of_Z 1) (mul (value x) (value x))))) /\
  returns_pair (errmath.acos x) σ (c_acos (value x))
    (div (error x) (c_sqrt (sub (of_Z 1) (mul (value x) (value x))))) /\
  returns_pair (errmath.log x) σ (c_log (value x))
    (div (error x) (value x)) /\
  returns_pair (errmath.acosh x) σ (c_acosh (value x))
    (div (error x) (c_sqrt (sub (mul (value x) (value x)) (of_Z 1)))).
Proof.
  unfold returns_pair, errmath.asin, errmath.acos, errmath.log,
    errmath.acosh.
  repeat split; eexists _, _; (split; [by mstep | by split]).
Qed.
End ErrmathRuns.

(** In binary64 the arithmetic of the model is that of [double]; the
    functions that the kernel's floats lack stay arguments. *)
Module Binary64Facts.
Import Binary64.

(** [errmath::sqrt] of [4 ± 1] is [2 ± 1] exactly. *)
Lemma sqrt_of_four_binary64 :
  errmath.sqrt Binary64Sample.four empty_store =
    (Normal (EV.ctor (of_Z 2) (of_Z 1)), mkState ∅ [of_Z 2]).
Proof. vm_compute. reflexivity. Qed.

(** The error of [errmath::atan] of [0.75 ± 5] is [4] exactly. *)
Lemma atan_error_binary64 `{Atan float} σ :
  returns_pair (errmath.atan Binary64Sample.three_quarters) σ
    (c_atan (value Binary64Sample.three_quarters)) (of_Z 4).
Proof.
  unfold returns_pair, errmath.atan. eexists _, _.
  split; [by mstep|]. split; [reflexivity|]. by vm_compute.
Qed.

(** The error of [errmath::asin] of [2 ± 1] is [1/sqrt(-3)], not a number. *)
Lemma asin_error_binary64 `{Asin float} σ :
  returns_pair (errmath.asin Binary64Sample.beyond_one) σ
    (c_asin (value Binary64Sample.beyond_one)) nan.
Proof.
  unfold returns_pair, errmath.asin. eexists _, _.
  split; [by mstep|]. split; [reflexivity|]. by vm_compute.
Qed.

(** The error of [errmath::log] of [0 ± 0] is [0/0], not a number. *)
Lemma log_error_binary64 `{Log float} σ :
  returns_pair (errmath.log Binary64Sample.zero) σ
    (c_log (value Binary64Sample.zero)) nan.
Proof.
  unfold returns_pair, errmath.log. eexists _, _.
  split; [by mstep|]. split; [reflexivity|]. by vm_compute.
Qed.

(** [(2 ± 1) *= (-1 ± 0)] leaves [-2 ± -1] in its left operand, and
    [(2 ± 1) * (-1 ± 0)] in its local copy, the third object. *)
Lemma negative_factor_binary64 :
  objs (snd (EV.op_mul_assign 1%positive 2%positive
               (two_objects Binary64Sample.two Binary64Sample.minus_one)))
    !! 1%positive = Some (EV.ctor (of_Z (-2)) (of_Z (-1))) /\
  objs (snd (EV.op_mul 1%positive 2%positive
               (two_objects Binary64Sample.two Binary64Sample.minus_one)))
    !! 3%positive = Some (EV.ctor (of_Z (-2)) (of_Z (-1))).
Proof. vm_compute. split; reflexivity. Qed.

(** The chain [min() <= value <= max()] does not go with the sign of the
    error: it holds of [1e16 ± -1], where both bounds round to the value,
    and its first half fails for [nan ± 0]. *)
Lemma chain_and_sign_of_error_binary64 :
  let big := EV.ctor (of_Z (10 ^ 16)) (of_Z (-1)) : ErrorValue float float in
  let void := EV.ctor (div (of_Z 0) (of_Z 0)) (of_Z 0)
              : ErrorValue float float in
  PrimFloat.ltb (error big) (of_Z 0) = true /\
  PrimFloat.leb (EV.min big) (to_E (value big)) = true /\
  PrimFloat.leb (to_E (value big)) (EV.max big) = true /\
  PrimFloat.leb (of_Z 0) (error void) = true /\
  PrimFloat.leb (EV.min void) (to_E (value void)) = false.
Proof. vm_compute. repeat split. Qed.

(** [a *= a] with [a = 2 ± 1] leaves [4 ± 3], whereas [a * a] leaves
    [4 ± 4] in its local copy. *)
Lemma squares_binary64 :
  objs (snd (EV.op_mul_assign 1%positive 1%positive
               (two_objects Binary64Sample.two Binary64Sample.three)))
    !! 1%positive = Some (EV.ctor (of_Z 4) (of_Z 3)) /\
  objs (snd (EV.op_mul 1%positive 1%positive
               (two_objects Binary64Sample.two Binary64Sample.three)))
    !! 3%positive = Some (EV.ctor (of_Z 4) (of_Z 4)).
Proof. vm_compute. split; reflexivity. Qed.
End Binary64Facts.

Module RealFacts.
Import Real.
Local Open Scope R_scope.
Implicit Types (x y : ErrorValue R R) (σ : state R R).

Lemma sqrt_4 : R_sqrt.sqrt 4 = 2.
Proof. replace 4 with (2 * 2) by lra. apply sqrt_square. lra. Qed.

Lemma sqrt_25_16 : R_sqrt.sqrt (1 + 3 / 4 * (3 / 4)) = 5 / 4.
Proof.
  replace (1 + 3 / 4 * (3 / 4)) with (5 / 4 * (5 / 4)) by lra.
  apply sqrt_square. lra.
Qed.

(** Against C4 as it is stated: [asin] of [2 ± 0.1] returns. *)
Lemma asin_of_two_returns :
  1 < Rabs (value SampleR.beyond_one) /\
  exists r σ', errmath.asin SampleR.beyond_one empty_store = (Normal r, σ').
Proof.
  split.
  - simpl. rewrite Rabs_right; lra.
  - eexists _, _. unfold errmath.asin. by mstep.
Qed.

(** The error that the formula of [*=] computes for the product of the
    values, with the quotients carried out: the values enter with their
    signs. *)
Lemma product_error_signed x y :
  value x <> 0 -> value y <> 0 ->
  error (stored Times (value x * value y) x y) =
    error x * value y + error y * value x.
Proof.
  intros Hx Hy. unfold stored, propagated, to_E, floating_Convert. simpl.
  by field.
Qed.

(** Between positive values it is the error of the relative-error rule. *)
Lemma product_error_positive x y :
  0 < value x -> 0 < value y ->
  error (stored Times (value x * value y) x y) =
    Rabs (value x * value y) *
      (error x / Rabs (value x) + error y / Rabs (value y)).
Proof.
  intros Hx Hy. rewrite product_error_signed by lra.
  rewrite !Rabs_right by nra. field. lra.
Qed.

(** What [errmath::sqrt] computes as the error agrees with
    [error/(2*sqrt(value))] only for an exact [x] or at [value == 1]. *)
Lemma sqrt_error_agrees_iff x :
  0 < value x ->
  error x / 2 * R_sqrt.sqrt (value x) =
    error x / (2 * R_sqrt.sqrt (value x))
  <-> error x = 0 \/ value x = 1.
Proof.
  intros Hv.
  assert (Hs : 0 < R_sqrt.sqrt (value x)) by (by apply sqrt_lt_R0).
  assert (Hsq : R_sqrt.sqrt (value x) * R_sqrt.sqrt (value x) = value x)
    by (apply sqrt_sqrt; lra).
  set (s := R_sqrt.sqrt (value x)) in *.
  split.
  - intros Heq.
    assert (Hmul : error x * (value x - 1) = 0).
    { rewrite <- Hsq.
      apply (Rmult_eq_compat_r (2 * s)) in Heq.
      field_simplify in Heq; [|lra]. nra. }
    apply Rmult_integral in Hmul. destruct Hmul; [by left | right; lra].
  - intros [He | Hone].
    + rewrite He. field. lra.
    + assert (s = 1) as -> by nra. field.
Qed.

(** C7 (as the code has it). [errmath::sqrt] of [4 ± 1] is [2 ± 1]: the
    error is [(1/2)*sqrt(4)], whereas [1/(2*sqrt(4))] is [1/4]. *)
Theorem sqrt_of_four σ :
  returns_pair (errmath.sqrt SampleR.four) σ 2 1 /\
  error SampleR.four / (2 * R_sqrt.sqrt (value SampleR.four)) = 1 / 4.
Proof.
  split.
  - eexists _, _. unfold errmath.sqrt. split; [by mstep|].
    simpl. unfold c_sqrt, R_Sqrt. rewrite sqrt_4. split; lra.
  - simpl. rewrite sqrt_4. lra.
Qed.

(** C8 (as the code has it). [errmath::atan] of [0.75 ± 5] has the error
    [5/sqrt(1 + 0.75^2) = 4], whereas [5/(1 + 0.75^2)] is [3.2]. *)
Theorem atan_of_three_quarters σ :
  returns_pair (errmath.atan SampleR.three_quarters) σ
    (Ratan.atan (3 / 4)) 4 /\
  error SampleR.three_quarters /
    (1 + value SampleR.three_quarters * value SampleR.three_quarters) =
    16 / 5.
Proof.
  split.
  - eexists _, _. unfold errmath.atan. split; [by mstep|].
    simpl. unfold c_sqrt, R_Sqrt. rewrite sqrt_25_16.
    split; [reflexivity | lra].
  - simpl. lra.
Qed.
End RealFacts.

Module RationalFacts.
Import Rational.
Local Open Scope Q_scope.

(** C3 (as the code has it). [(2 ± 1) *= (-1 ± 0)] stores [-2] with the
    error [-1], and [(2 ± 1) * (-1 ± 0)] does so in its local copy, the
    third object: the formula of the source takes no absolute value. The
    relative-error rule gives the error [1]. Neither call returns:
    [operator*=] has no [return] statement. *)
Theorem product_with_negative_factor :
  (exists r σ',
      EV.op_mul 1%positive 2%positive
          (two_objects Sample.two Sample.minus_one) = (Undefined, σ') /\
      objs σ' !! 3%positive = Some r /\
      value r == -2 /\ error r == -1) /\
  (exists r σ',
      EV.op_mul_assign 1%positive 2%positive
          (two_objects Sample.two Sample.minus_one) = (Undefined, σ') /\
      objs σ' !! 1%positive = Some r /\
      value r == -2 /\ error r == -1) /\
  Qabs (value Sample.two * value Sample.minus_one) *
    (error Sample.two / Qabs (value Sample.two) +
     error Sample.minus_one / Qabs (value Sample.minus_one)) == 1.
Proof.
  split; [|split].
  - change (EV.op_mul 1%positive 2%positive _)
      with (operator Times 1%positive 2%positive
              (two_objects Sample.two Sample.minus_one)).
    rewrite (operator_run Times (two_objects Sample.two Sample.minus_one)
               1%positive 2%positive Sample.two Sample.minus_one
               (2 * -1)) by reflexivity.
    eexists _, _. split; [reflexivity|].
    split; [reflexivity|]. split; reflexivity.
  - change (EV.op_mul_assign 1%positive 2%positive _)
      with (compound Times 1%positive 2%positive
              (two_objects Sample.two Sample.minus_one)).
    rewrite (compound_run Times (two_objects Sample.two Sample.minus_one)
               1%positive 2%positive Sample.two Sample.minus_one
               (2 * -1)) by reflexivity.
    eexists _, _. split; [reflexivity|].
    split; [apply lookup_insert_eq|]. split; reflexivity.
  - reflexivity.
Qed.
End RationalFacts.

(** ** Bare numbers on the right *)

Section PromotionLaws.
Context {T E : Type} `{Arith E} `{Value T} `{Convert T E}.
Context `{!Decimal T} `{Pow E}.
Implicit Types (σ : state T E) (this : addr) (x y : ErrorValue T E) (k : T).

Lemma defaultNumberError_zero fuel σ this x k :
  objs σ !! this = Some x ->
  numberDefaultErrorCode x = DEF_ERROR_ZERO ->
  EV.defaultNumberError fuel this k σ = (Normal (of_Z 0), σ).
Proof.
  intros Hx Hcode. unfold EV.defaultNumberError. mstep.
  by rewrite Hcode.
Qed.

Lemma defaultNumberError_func fuel σ this x k :
  objs σ !! this = Some x ->
  numberDefaultErrorCode x = DEF_ERROR_FUNC ->
  EV.defaultNumberError fuel this k σ =
    match defaultErrorCalcFunction x with
    | Some fn => (Normal (fn k), σ)
    | None => (Throws bad_function_call, σ)
    end.
Proof.
  intros Hx Hcode. unfold EV.defaultNumberError. mstep.
  rewrite Hcode. cbn. by destruct (defaultErrorCalcFunction x).
Qed.

Lemma compound_T_unfold op fuel this k :
  compound_T op fuel this k = EV.with_promoted (compound op) fuel this k.
Proof. by destruct op. Qed.

Lemma defaultNumberError_half fuel σ this x k :
  objs σ !! this = Some x ->
  numberDefaultErrorCode x = DEF_ERROR_HALF ->
  EV.defaultNumberError fuel this k σ = EV.halfErrorCalcFunction fuel k σ.
Proof.
  intros Hx Hcode. unfold EV.defaultNumberError.
  mstep. rewrite Hcode. reflexivity.
Qed.

(** [T] is integral, so [floor(x) == x] holds and the branch for decimal
    places is not taken. *)
Lemma halfErrorCalcFunction_integral fuel k :
  EV.halfErrorCalcFunction fuel k =
    (c ← EV.strip_zeros fuel 0%Z k;
     mret (mul (of_Z 5) (c_pow (of_Z 10) (c - 1)%Z))).
Proof. unfold EV.halfErrorCalcFunction. by rewrite floor_whole. Qed.
End PromotionLaws.

(** ** The half-unit rule on [int] *)

Module PromotionFacts.
Import Int.

Section AnyError.
Context {E : Type} `{Arith E} `{Pow E}.
Implicit Types (σ : state Z E) (this : addr) (obj : ErrorValue Z E).
Implicit Types (m c k x : Z).

Lemma rem_ten_run x : rem x (lit 10) = Some (Z.rem x 10).
Proof. reflexivity. Qed.

Lemma div_ten_run x : v_div x (lit 10) = Some (Z.quot x 10).
Proof. reflexivity. Qed.

Lemma pow10_succ (n : nat) :
  (10 ^ Z.of_nat (S n) = 10 * 10 ^ Z.of_nat n)%Z.
Proof. rewrite Nat2Z.inj_succ. apply Z.pow_succ_r. lia. Qed.

(** The first loop counts the [c] zeros at the end of [m * 10^c]. *)
Lemma strip_zeros_counts (c : nat) : forall m k fuel σ,
  Z.rem m 10 <> 0%Z ->
  (c < fuel)%nat ->
  exists σ',
    EV.strip_zeros fuel k (m * 10 ^ Z.of_nat c)%Z σ =
      (Normal (k + Z.of_nat c)%Z, σ') /\
    objs σ' = objs σ.
Proof.
  induction c as [|c IH]; intros m k fuel σ Hm Hfuel;
    (destruct fuel as [|fuel]; [lia|]); cbn [EV.strip_zeros].
  - erewrite bind_normal by apply defined_run, rem_ten_run.
    rewrite Z.pow_0_r, Z.mul_1_r.
    change (eqb (Z.rem m 10) (lit 0)) with (Z.eqb (Z.rem m 10) 0).
    rewrite (proj2 (Z.eqb_neq _ _) Hm).
    exists σ. by rewrite Z.add_0_r.
  - erewrite bind_normal by apply defined_run, rem_ten_run.
    assert (Hrem : Z.rem (m * 10 ^ Z.of_nat (S c)) 10 = 0%Z).
    { rewrite pow10_succ, (Z.mul_comm 10), Z.mul_assoc.
      apply Z.rem_mul. lia. }
    assert (Hquot : Z.quot (m * 10 ^ Z.of_nat (S c)) 10 =
                      (m * 10 ^ Z.of_nat c)%Z).
    { rewrite pow10_succ, (Z.mul_comm 10), Z.mul_assoc.
      apply Z.quot_mul. lia. }
    rewrite Hrem. change (eqb 0%Z (lit 0)) with true. cbv iota.
    erewrite bind_normal by apply divide_T_run, div_ten_run.
    rewrite Hquot.
    destruct (IH m (k + 1)%Z fuel
                (mkState (objs σ) (to_E (lit 10 : Z) :: divisors σ)) Hm)
      as (σ' & Hrun & Hobjs); [lia|].
    exists σ'. rewrite Hrun, Hobjs. split; [|done].
    do 2 f_equal. lia.
Qed.

Lemma halfErrorCalcFunction_whole fuel σ m c :
  (0 <= c)%Z -> Z.rem m 10 <> 0%Z ->
  (Z.to_nat c < fuel)%nat ->
  exists σ',
    EV.halfErrorCalcFunction fuel (m * 10 ^ c)%Z σ =
      (Normal (mul (of_Z 5) (c_pow (of_Z 10) (c - 1)%Z)), σ').
Proof.
  intros Hc Hm Hfuel. rewrite halfErrorCalcFunction_integral.
  destruct (strip_zeros_counts (Z.to_nat c) m 0%Z fuel σ Hm)
    as (σ' & Hrun & _); [done|].
  rewrite Z2Nat.id, Z.add_0_l in Hrun by done.
  exists σ'. by erewrite bind_normal by exact Hrun.
Qed.

(** [0 % 10 == 0] and [0 / 10] is [0] again: the first loop has no last
    round. *)
Lemma strip_zeros_of_zero fuel : forall c σ,
  fst (EV.strip_zeros fuel c 0%Z σ) = Timeout.
Proof.
  induction fuel as [|fuel IH]; intros c σ; [reflexivity|].
  cbn [EV.strip_zeros].
  erewrite bind_normal by apply defined_run, rem_ten_run.
  change (eqb (Z.rem 0 10) (lit 0)) with true. cbv iota.
  erewrite bind_normal by apply divide_T_run, div_ten_run.
  apply IH.
Qed.

Lemma defaultNumberError_of_zero fuel σ this obj :
  objs σ !! this = Some obj ->
  numberDefaultErrorCode obj = DEF_ERROR_HALF ->
  fst (EV.defaultNumberError fuel this 0%Z σ) = Timeout.
Proof.
  intros Hobj Hcode.
  rewrite (defaultNumberError_half fuel σ this obj 0%Z Hobj Hcode).
  rewrite halfErrorCalcFunction_integral.
  apply bind_timeout, strip_zeros_of_zero.
Qed.

(** X9. Under [DEF_ERROR_HALF] the number [0] cannot be promoted: [0] is
    divisible by 10 however often it is divided, so the first loop of
    [halfErrorCalcFunction] has no last round. [a OP= 0] and [a OP 0] do not
    get as far as their arithmetic, with whatever fuel. *)
Theorem zero_is_never_promoted op fuel σ this obj :
  objs σ !! this = Some obj ->
  numberDefaultErrorCode obj = DEF_ERROR_HALF ->
  fst (compound_T op fuel this 0%Z σ) = Timeout /\
  fst (EV.binary_T (compound_T op) fuel this 0%Z σ) = Timeout.
Proof.
  intros Hobj Hcode.
  assert (Hcompound : forall σ' p,
            objs σ' !! p = Some obj ->
            fst (compound_T op fuel p 0%Z σ') = Timeout).
  { intros σ' p Hp. rewrite compound_T_unfold.
    unfold EV.with_promoted.
    by apply bind_timeout, (defaultNumberError_of_zero fuel σ' p obj). }
  split; [by apply Hcompound|].
  unfold EV.binary_T. do 2 mstep. unfold EV.scoped.
  assert (Hres : fst ((compound_T op fuel (fresh (dom (objs σ))) 0%Z ≫=
                         λ _, load (fresh (dom (objs σ))))
                        (mkState (<[fresh (dom (objs σ)) := obj]> (objs σ))
                                 (divisors σ))) = Timeout).
  { apply bind_timeout, Hcompound. apply lookup_insert_eq. }
  revert Hres.
  by destruct ((compound_T op fuel _ 0%Z ≫= _) _) as [[] ?]; simpl.
Qed.
End AnyError.

Import Rational.
Local Open Scope Q_scope.

(** C5 (as the code has it). The half-unit rule needs [x % 10] and so an
    integral [T]; on [int], under [DEF_ERROR_HALF]: the number [0] is never
    promoted, with whatever fuel, because the loop that counts its zeros
    does not end; [100] is promoted with the error [50] and [1] with [0.5];
    in general [m * 10^c], with the last digit of [m] not zero, gets
    [5 * 10^(c-1)] after [c] rounds of the loop; and since every [int] is
    whole the branch for decimal places is never taken. *)
Theorem half_unit_promotion (σ : state Z Q) this obj :
  objs σ !! this = Some obj ->
  numberDefaultErrorCode obj = DEF_ERROR_HALF ->
  (forall fuel, fst (EV.defaultNumberError fuel this 0%Z σ) = Timeout) /\
  (forall fuel, (2 < fuel)%nat ->
     promoted fuel this σ 100 50 /\ promoted fuel this σ 1 0.5) /\
  (forall fuel m c,
     (0 <= c)%Z -> Z.rem m 10 <> 0%Z -> (Z.to_nat c < fuel)%nat ->
     promoted fuel this σ (m * 10 ^ c) (5 * 10 ^ (c - 1))) /\
  (forall fuel (x : Z) (σ' : state Z Q),
     EV.halfErrorCalcFunction fuel x σ' =
       (c ← EV.strip_zeros fuel 0%Z x;
        mret (mul (of_Z 5) (c_pow (of_Z 10) (c - 1)%Z))) σ').
Proof.
  intros Hobj Hcode.
  assert (Hwhole : forall fuel m c,
     (0 <= c)%Z -> Z.rem m 10 <> 0%Z -> (Z.to_nat c < fuel)%nat ->
     promoted fuel this σ (m * 10 ^ c) (5 * 10 ^ (c - 1))).
  { intros fuel m c Hc Hm Hc'. unfold promoted.
    rewrite (defaultNumberError_half fuel σ this obj _ Hobj Hcode).
    destruct (halfErrorCalcFunction_whole fuel σ m c Hc Hm Hc')
      as [σ' Hrun].
    eexists _, σ'. split; [exact Hrun | reflexivity]. }
  split; [|split; [|split]].
  - intros fuel. by apply (defaultNumberError_of_zero fuel σ this obj).
  - intros fuel Hfuel. split.
    + destruct (Hwhole fuel 1%Z 2%Z) as (e & σ' & Hrun & He);
        [lia | done | simpl; lia | ].
      exists e, σ'. split; [exact Hrun|]. rewrite He. reflexivity.
    + destruct (Hwhole fuel 1%Z 0%Z) as (e & σ' & Hrun & He);
        [lia | done | simpl; lia | ].
      exists e, σ'. split; [exact Hrun|]. rewrite He. reflexivity.
  - exact Hwhole.
  - intros fuel x σ'. by rewrite halfErrorCalcFunction_integral.
Qed.
End PromotionFacts.

(** C5 at a concrete input: the promotions by [6 ± 1] with the policy
    [DEF_ERROR_HALF]. *)
Lemma half_unit_promotion_of_six :
  (forall fuel,
     fst (EV.defaultNumberError fuel 1%positive 0%Z
            (two_objects SampleInt.six_half_unit SampleInt.three)) =
       Timeout) /\
  (forall fuel, (2 < fuel)%nat ->
     promoted fuel 1%positive
       (two_objects SampleInt.six_half_unit SampleInt.three) 100 50 /\
     promoted fuel 1%positive
       (two_objects SampleInt.six_half_unit SampleInt.three) 1 0.5) /\
  (forall fuel m c,
     (0 <= c)%Z -> Z.rem m 10 <> 0%Z -> (Z.to_nat c < fuel)%nat ->
     promoted fuel 1%positive
       (two_objects SampleInt.six_half_unit SampleInt.three)
       (m * 10 ^ c) (5 * 10 ^ (c - 1))) /\
  (forall fuel (x : Z) (σ' : state Z Q),
     EV.halfErrorCalcFunction fuel x σ' =
       (c ← EV.strip_zeros fuel 0%Z x;
        mret (mul (of_Z 5) (c_pow (of_Z 10) (c - 1)%Z))) σ').
Proof.
  exact (PromotionFacts.half_unit_promotion
           (two_objects SampleInt.six_half_unit SampleInt.three)
           1%positive SampleInt.six_half_unit eq_refl eq_refl).
Defined.

(** [a += 0] and [a + 0] on [6 ± 1] with the policy [DEF_ERROR_HALF], with
    fuel for seven rounds. *)
Lemma zero_added_to_six_half_unit :
  fst (compound_T Plus 7 1%positive 0%Z
         (two_objects SampleInt.six_half_unit SampleInt.three)) = Timeout /\
  fst (EV.binary_T (compound_T Plus) 7 1%positive 0%Z
         (two_objects SampleInt.six_half_unit SampleInt.three)) = Timeout.
Proof.
  exact (PromotionFacts.zero_is_never_promoted Plus 7
           (two_objects SampleInt.six_half_unit SampleInt.three) 1%positive
           SampleInt.six_half_unit eq_refl eq_refl).
Defined.

(** ** What every sequence of calls keeps *)

Section KeepsRules.
Context {T E : Type} (P : ErrorValue T E -> Prop) (D : E -> Prop).
Implicit Types (σ : state T E) (p : addr) (x : ErrorValue T E).

Lemma keeps_ret {A} (a : A) (Q : A -> Prop) :
  Q a -> keeps P D (mret a) Q.
Proof. intros Ha σ Hσ. split; [done|]. intros a' [= <-]. done. Qed.

Lemma keeps_bind {A B} (m : M T E A) (k : A -> M T E B) Q R :
  keeps P D m Q -> (forall a, Q a -> keeps P D (k a) R) ->
  keeps P D (m ≫= k) R.
Proof.
  intros Hm Hk σ Hσ. destruct (Hm σ Hσ) as [Hs HQ].
  unfold mbind, M_bind. destruct (m σ) as [[a| | |] σ']; simpl in *;
    try (split; [done | discriminate]).
  apply (Hk a (HQ a eq_refl) σ' Hs).
Qed.

Lemma keeps_weaken {A} (m : M T E A) (Q Q' : A -> Prop) :
  keeps P D m Q -> (forall a, Q a -> Q' a) -> keeps P D m Q'.
Proof.
  intros Hm HQ σ Hσ. destruct (Hm σ Hσ) as [Hs Hq]. split; [done|].
  intros a Ha. auto.
Qed.

Lemma keeps_throw {A} (e : exn) (Q : A -> Prop) : keeps P D (throw e) Q.
Proof. intros σ Hσ. split; [done | discriminate]. Qed.

Lemma keeps_timeout {A} (Q : A -> Prop) : keeps P D timeout Q.
Proof. intros σ Hσ. split; [done | discriminate]. Qed.

Lemma keeps_undefined {A} (Q : A -> Prop) : keeps P D undefined Q.
Proof. intros σ Hσ. split; [done | discriminate]. Qed.

Lemma keeps_defined {A} (r : option A) :
  keeps P D (defined r) (fun a => r = Some a).
Proof.
  intros σ Hσ. unfold defined. destruct r as [a|]; simpl.
  - split; [done|]. by intros a' [= <-].
  - split; [done | discriminate].
Qed.

Lemma keeps_load p : keeps P D (load p) P.
Proof.
  intros σ Hσ. unfold load. destruct (objs σ !! p) as [x|] eqn:Hp; simpl.
  - split; [done|]. intros a [= <-]. by apply (proj1 Hσ p).
  - split; [done | discriminate].
Qed.

Lemma keeps_get {A} (f : ErrorValue T E -> A) p :
  keeps P D (x ← load p; mret (f x)) (fun a => exists x, P x /\ a = f x).
Proof.
  eapply keeps_bind; [apply keeps_load|].
  intros x Hx. apply keeps_ret. eauto.
Qed.

Lemma keeps_update p (f : ErrorValue T E -> ErrorValue T E) :
  (forall x, P x -> P (f x)) -> keeps P D (update p f) (fun _ => True).
Proof.
  intros Hf σ [Hobjs Hdiv]. unfold update.
  destruct (objs σ !! p) as [x|] eqn:Hp; simpl; [|by split].
  split; [|done]. split; [|done]. simpl.
  apply map_Forall_insert_2; [|done]. apply Hf, (Hobjs p x Hp).
Qed.

Lemma keeps_alloc x : P x -> keeps P D (alloc x) (fun _ => True).
Proof.
  intros Hx σ [Hobjs Hdiv]. split; [|done]. split; [|done]. simpl.
  by apply map_Forall_insert_2.
Qed.

Lemma keeps_free p : keeps P D (free p) (fun _ => True).
Proof.
  intros σ [Hobjs Hdiv]. split; [|done]. split; [|done]. simpl.
  by apply map_Forall_delete.
Qed.

Lemma keeps_divide `{Arith E} (u v : E) :
  D v -> keeps P D (divide u v) (fun q => q = div u v).
Proof.
  intros Hv σ [Hobjs Hdiv]. split.
  - split; [done|]. simpl. by constructor.
  - intros a [= <-]. done.
Qed.

Lemma keeps_divide_T `{Value T} `{Convert T E} (u v : T) :
  D (to_E v) -> keeps P D (divide_T u v) (fun q => v_div u v = Some q).
Proof.
  intros Hv σ [Hobjs Hdiv]. unfold divide_T, defined.
  destruct (v_div u v) as [q|]; simpl.
  - split; [split; [done | by constructor]|]. by intros a [= <-].
  - split; [split; [done | by constructor] | discriminate].
Qed.

Lemma keeps_scoped {A} res (body : M T E A) Q :
  keeps P D body Q -> keeps P D (EV.scoped res body) Q.
Proof.
  intros Hbody σ Hσ. destruct (Hbody σ Hσ) as [Hs HQ].
  unfold EV.scoped. destruct (body σ) as [[a| | |] σ']; simpl in *;
    try (split; [done | discriminate]).
  - split; [apply (keeps_free res σ' Hs)|]. intros a' [= <-]. by apply HQ.
  - split; [apply (keeps_free res σ' Hs) | discriminate].
Qed.
End KeepsRules.

(** A client whose statements each keep the store sound keeps it sound. *)
Lemma run_sound {T E : Type} `{Arith E} `{Value T} `{Convert T E}
    `{!Decimal T} `{Pow E} (P : ErrorValue T E -> Prop)
    (D : E -> Prop) (ok : call T E -> Prop) fuel (cs : list (call T E)) σ :
  (forall c, ok c -> keeps P D (exec fuel c) (fun _ => True)) ->
  Forall ok cs -> sound P D σ -> sound P D (run fuel cs σ).
Proof.
  intros Hexec Hcs. revert σ.
  induction Hcs as [|c cs Hc _ IH]; intros σ Hσ; [done|].
  cbn [run]. destruct (Hexec c Hc σ Hσ) as [Hs _].
  destruct (exec fuel c σ) as [[[]| | |] σ']; simpl in *; auto.
Qed.

Section ValidCodes.
Context {T E : Type} `{Arith E} `{Value T} `{Convert T E}.
Context `{!Decimal T} `{Pow E}.
Implicit Types (σ : state T E) (p this : addr) (x : ErrorValue T E).

Local Abbreviation K m :=
  (keeps (T:=T) (E:=E) valid_code (fun _ => True) m (fun _ => True)).
Local Abbreviation KV m :=
  (keeps (T:=T) (E:=E) valid_code (fun _ => True) m valid_code).

Lemma vc_bind {A B} (m : M T E A) (k : A -> M T E B) :
  K m -> (forall a, K (k a)) -> K (m ≫= k).
Proof. intros Hm Hk. eapply keeps_bind; [exact Hm | auto]. Qed.

Lemma vc_forget {A} (m : M T E A) Q :
  keeps valid_code (fun _ => True) m Q -> K m.
Proof. intros Hm. eapply keeps_weaken; [exact Hm | done]. Qed.

Lemma vc_get_value p : K (get_value p).
Proof. apply (vc_forget _ _ (keeps_get _ _ value p)). Qed.

Lemma vc_get_error p : K (get_error p).
Proof. apply (vc_forget _ _ (keeps_get _ _ error p)). Qed.

Lemma vc_set_value p v : K (set_value p v).
Proof. apply keeps_update. by intros x Hx. Qed.

Lemma vc_set_error p e : K (set_error p e).
Proof. apply keeps_update. by intros x Hx. Qed.

Lemma vc_divide (u v : E) : K (divide u v).
Proof. by apply (vc_forget _ _ (keeps_divide _ _ u v I)). Qed.

Lemma vc_divide_T (u v : T) : K (divide_T u v).
Proof. by apply (vc_forget _ _ (keeps_divide_T _ _ u v I)). Qed.

Lemma vc_defined {A} (r : option A) : K (defined r).
Proof. apply (vc_forget _ _ (keeps_defined _ _ r)). Qed.

Lemma vc_ret {A} (a : A) : K (mret a).
Proof. by apply keeps_ret. Qed.

Lemma vc_ctor (v : T) (e : E) : valid_code (EV.ctor v e).
Proof. by left. Qed.

(** Run through a member function made of the statements above. *)
Ltac vc :=
  repeat first
    [ apply vc_get_value | apply vc_get_error | apply vc_set_value
    | apply vc_set_error | apply vc_divide | apply vc_divide_T
    | apply vc_defined | apply vc_ret
    | apply keeps_throw | apply keeps_timeout | apply keeps_undefined
    | apply keeps_free | apply (vc_forget _ _ (keeps_load _ _ _))
    | apply vc_bind; [ | intros ? ] ].

Lemma vc_compound op (a b : addr) : K (compound op a b).
Proof.
  destruct op; unfold compound, EV.op_add_assign, EV.op_sub_assign,
    EV.op_mul_assign, EV.op_div_assign; vc.
Qed.

Lemma vc_binary (op_assign : addr -> addr -> M T E (ErrorValue T E))
    (a b : addr) :
  (forall r b', K (op_assign r b')) -> KV (EV.binary op_assign a b).
Proof.
  intros Hop. unfold EV.binary.
  eapply keeps_bind; [apply keeps_load|]. intros x Hx.
  eapply keeps_bind; [by apply keeps_alloc|]. intros res _.
  eapply keeps_bind; [apply Hop|]. intros _ _.
  eapply keeps_bind; [apply keeps_load|]. intros r Hr.
  eapply keeps_bind; [apply keeps_free|]. intros _ _.
  by apply keeps_ret.
Qed.

Lemma vc_strip_zeros fuel c (x : T) : K (EV.strip_zeros fuel c x).
Proof.
  revert c x. induction fuel as [|fuel IH]; intros c x;
    cbn [EV.strip_zeros]; [apply keeps_timeout|].
  apply vc_bind; [apply vc_defined|]. intros r.
  destruct (eqb _ _); vc. apply IH.
Qed.

Lemma vc_shift_places fuel c (x : T) : K (EV.shift_places fuel c x).
Proof.
  revert c x. induction fuel as [|fuel IH]; intros c x;
    cbn [EV.shift_places]; [apply keeps_timeout|].
  destruct (negb _); vc. apply IH.
Qed.

Lemma vc_defaultNumberError fuel this (k : T) :
  K (EV.defaultNumberError fuel this k).
Proof.
  unfold EV.defaultNumberError, EV.halfErrorCalcFunction.
  apply vc_bind; [vc|]. intros obj.
  repeat case_decide; vc.
  - destruct (eqb _ _); vc; [apply vc_strip_zeros | apply vc_shift_places].
  - destruct (defaultErrorCalcFunction obj); vc.
Qed.

Lemma vc_compound_T op fuel (a : addr) (k : T) : K (compound_T op fuel a k).
Proof.
  assert (Hwith : forall op_assign, (forall r b', K (op_assign r b')) ->
            K (EV.with_promoted op_assign fuel a k)).
  { intros op_assign Hop. unfold EV.with_promoted.
    apply vc_bind; [apply vc_defaultNumberError|]. intros e.
    apply vc_bind; [apply keeps_alloc, vc_ctor|]. intros tmp.
    apply vc_bind; [apply Hop | intros _].
    apply vc_bind; [apply keeps_free | intros _; apply keeps_undefined]. }
  destruct op; apply Hwith; intros r b'.
  - apply (vc_compound Plus). - apply (vc_compound Minus).
  - apply (vc_compound Times). - apply (vc_compound Over).
Qed.

Lemma vc_binary_T op fuel (a : addr) (k : T) :
  KV (EV.binary_T (compound_T op) fuel a k).
Proof.
  unfold EV.binary_T.
  eapply keeps_bind; [apply keeps_load|]. intros x Hx.
  eapply keeps_bind; [by apply keeps_alloc|]. intros res _.
  apply keeps_scoped.
  eapply keeps_bind; [apply vc_compound_T|]. intros _ _.
  apply keeps_load.
Qed.

Lemma vc_initialise (m : M T E (ErrorValue T E)) :
  KV m -> K (initialise m).
Proof.
  intros Hm. unfold initialise.
  eapply keeps_bind; [exact Hm|]. intros r Hr.
  apply vc_bind; [by apply keeps_alloc | intros _; apply vc_ret].
Qed.

Lemma vc_discard (m : M T E (ErrorValue T E)) : K m -> K (discard m).
Proof.
  intros Hm. unfold discard. apply vc_bind; [exact Hm|]. intros _.
  apply vc_ret.
Qed.

Lemma vc_setter this code fn :
  K (EV.setDefaultErrorCalculationMethod this code fn).
Proof.
  unfold EV.setDefaultErrorCalculationMethod, EV.from_DEF_ERROR_FUNC,
    EV.from_DEF_ERROR_ZERO, EV.from_DEF_ERROR_HALF, EV.from_default,
    EV.set_fun, EV.set_code.
  repeat case_decide; subst; vc;
    apply keeps_update; intros x Hx; unfold valid_code; simpl; auto.
Qed.

Lemma vc_exec fuel (c : call T E) : K (exec fuel c).
Proof.
  destruct c; cbn [exec].
  - apply vc_initialise, keeps_ret, vc_ctor.
  - apply vc_initialise, keeps_load.
  - apply vc_initialise. unfold EV.op_neg.
    eapply keeps_bind; [apply keeps_load|]. intros x _.
    eapply keeps_bind; [apply keeps_defined|]. intros n _.
    apply keeps_ret, vc_ctor.
  - apply vc_discard, vc_compound.
  - apply vc_discard, vc_compound_T.
  - apply vc_initialise, vc_binary. intros. apply vc_compound.
  - apply vc_initialise, vc_binary_T.
  - unfold EV.set. vc.
  - apply vc_discard. unfold EV.op_assign_T. vc.
  - apply vc_setter.
Qed.

(** X1. The policy code of an object is 0, 1 or 2 and stays so: whatever the
    client calls, with whatever arguments, on a store of objects with such
    codes, the objects it leaves have such codes. The setter stores a code
    only under its three [case] labels, and every other member copies it or
    starts from the initializer [DEF_ERROR_ZERO]. *)
Theorem policy_code_stays_valid fuel (cs : list (call T E)) σ :
  map_Forall (fun _ x => valid_code x) (objs σ) ->
  map_Forall (fun _ x => valid_code x) (objs (run fuel cs σ)).
Proof.
  intros Hσ.
  apply (run_sound valid_code (fun _ => True) (fun _ => True) fuel cs σ).
  - intros c _. apply vc_exec.
  - by apply Forall_forall.
  - split; [done|]. by apply Forall_forall.
Qed.

(** X2. So the [switch] of [defaultNumberError], which has no [default] label,
    always finds its [case]: on an object that a client made, the promotion
    of a bare number returns, throws [bad_function_call] or loops, and never
    runs off the end of the function. *)
Theorem defaultNumberError_finds_its_case fuel fuel' (cs : list (call T E))
    this x (k : T) :
  objs (run fuel cs empty_store) !! this = Some x ->
  fst (EV.defaultNumberError fuel' this k (run fuel cs empty_store))
    <> Undefined.
Proof.
  intros Hx.
  assert (Hvalid : valid_code x).
  { eapply (run_sound valid_code (fun _ => True) (fun _ => True)
              fuel cs empty_store); [ | | | exact Hx ].
    - intros c _. apply vc_exec.
    - by apply Forall_forall.
    - split; [apply map_Forall_empty | constructor]. }
  unfold EV.defaultNumberError. mstep.
  assert (Hstrip : forall n c y σ,
            fst (EV.strip_zeros n c y σ) <> Undefined).
  { induction n as [|n IH]; intros c y σ; cbn [EV.strip_zeros]; [done|].
    destruct (rem_ten y) as [r Hr]. destruct (div_ten y) as [q Hq].
    mstep. destruct (eqb _ _); [|done]. mstep. apply IH. }
  destruct Hvalid as [Hc | [Hc | Hc]]; rewrite Hc;
    unfold DEF_ERROR_ZERO, DEF_ERROR_HALF, DEF_ERROR_FUNC;
    repeat case_decide; try lia; try done.
  - unfold EV.halfErrorCalcFunction. rewrite floor_whole.
    unfold mbind, M_bind.
    specialize (Hstrip fuel' 0%Z k (run fuel cs empty_store)).
    by destruct (EV.strip_zeros _ _ _ _) as [[] ?].
  - by destruct (defaultErrorCalcFunction x).
Qed.
End ValidCodes.

(** [SampleInt.client] leaves objects with valid codes: the first has
    [DEF_ERROR_HALF], the second [DEF_ERROR_FUNC] without a function. *)
Lemma policy_code_of_client :
  map_Forall (fun _ x => valid_code x)
    (objs (run 5 SampleInt.client empty_store)).
Proof.
  exact (policy_code_stays_valid 5 SampleInt.client empty_store
           (map_Forall_empty _)).
Defined.

(** After [SampleInt.client] the promotion of [7] by its second object,
    which has the policy [DEF_ERROR_FUNC] and no function, does not run off
    the [switch]. *)
Lemma defaultNumberError_of_client :
  fst (EV.defaultNumberError 5 2%positive 7%Z
         (run 5 SampleInt.client empty_store)) <> Undefined.
Proof.
  refine (defaultNumberError_finds_its_case 5 5 SampleInt.client 2%positive
            SampleInt.three_no_function 7%Z _).
  vm_compute. reflexivity.
Defined.

Section Promoted.
Context {T E : Type} `{Arith E} `{Value T} `{Convert T E}.
Context `{!Decimal T} `{Pow E}.
Implicit Types (σ : state T E) (this : addr) (x y : ErrorValue T E) (k : T).

(** X4. Under [DEF_ERROR_ZERO], the policy an object is constructed with,
    [a OP= k] needs no round of a loop and acts on [a] as
    [a OP= ErrorValue(k, 0)], for each of the four operators: where the
    operation on the values has the result [v], [a] gets [v] and the error
    that the operator computes from the error [0] of the temporary. The
    call ends inside [operator OP=], which has no [return] statement, with
    the temporary still alive. *)
Theorem promotion_under_zero op fuel σ this x k v :
  objs σ !! this = Some x ->
  numberDefaultErrorCode x = DEF_ERROR_ZERO ->
  result_of op (value x) k = Some v ->
  compound_T op fuel this k σ =
    (Undefined,
     mkState (<[this := stored op v x (EV.ctor k (of_Z 0))]>
                (<[fresh (dom (objs σ)) := EV.ctor k (of_Z 0)]> (objs σ)))
             (formula_divisors op x (EV.ctor k (of_Z 0)) ++
              value_divisors op (EV.ctor k (of_Z 0)) ++ divisors σ)).
Proof.
  intros Hx Hcode Hv. rewrite compound_T_unfold. unfold EV.with_promoted.
  erewrite bind_normal
    by (by apply (defaultNumberError_zero fuel σ this x)).
  mstep.
  assert (Hne : this <> fresh (dom (objs σ))).
  { intros Heq. by apply (live_not_fresh σ this x). }
  erewrite bind_undefined; [reflexivity|].
  erewrite (compound_run op _ this _ x (EV.ctor k (of_Z 0)) v); cycle 1.
  { simpl. by rewrite lookup_insert_ne. }
  { live. }
  { done. }
  unfold seen. by rewrite decide_False.
Qed.

(** X5. With the policy [DEF_ERROR_FUNC] and no function -- the state the
    setter leaves when it is called with code 2 and [nullptr] -- [a OP= k]
    and [a OP k] throw [std::bad_function_call] before any arithmetic and
    leave the store as it was. *)
Theorem promotion_throws_without_function op fuel σ this x k :
  objs σ !! this = Some x ->
  numberDefaultErrorCode x = DEF_ERROR_FUNC ->
  defaultErrorCalcFunction x = None ->
  compound_T op fuel this k σ = (Throws bad_function_call, σ) /\
  EV.binary_T (compound_T op) fuel this k σ = (Throws bad_function_call, σ).
Proof.
  intros Hx Hcode Hfn.
  assert (Hthrow : forall σ' p,
            objs σ' !! p = Some x ->
            compound_T op fuel p k σ' = (Throws bad_function_call, σ')).
  { intros σ' p Hp. rewrite compound_T_unfold. unfold EV.with_promoted.
    apply bind_throws.
    by rewrite (defaultNumberError_func fuel σ' p x k Hp Hcode), Hfn. }
  split; [by apply Hthrow|].
  unfold EV.binary_T. do 2 mstep. unfold EV.scoped.
  erewrite bind_throws by (apply Hthrow; live).
  cbn [free snd objs divisors].
  rewrite delete_insert_eq, delete_id by apply fresh_dead.
  by destruct σ.
Qed.

(** Whatever [m] does, a continuation that never returns makes the whole
    never return; and so does an [m] that never returns. *)
Lemma never_normal_bind {A B} (m : M T E A) (k : A -> M T E B) σ :
  (forall a σ' r, fst (k a σ') <> Normal r) ->
  forall r, fst ((m ≫= k) σ) <> Normal r.
Proof.
  intros Hk r. unfold mbind, M_bind.
  destruct (m σ) as [[a| | |] σ']; simpl; first [apply Hk | done].
Qed.

Lemma never_normal_first {A B} (m : M T E A) (k : A -> M T E B) σ :
  (forall σ' a, fst (m σ') <> Normal a) ->
  forall r, fst ((m ≫= k) σ) <> Normal r.
Proof.
  intros Hm r. unfold mbind, M_bind. specialize (Hm σ).
  destruct (m σ) as [[a| | |] σ']; simpl in *; try done.
  by destruct (Hm a).
Qed.

Lemma compound_never_returns op (a b : addr) σ r :
  fst (compound op a b σ) <> Normal r.
Proof.
  destruct op; cbn [compound];
    unfold EV.op_add_assign, EV.op_sub_assign, EV.op_mul_assign,
      EV.op_div_assign;
    repeat (apply never_normal_bind; intros); done.
Qed.

Lemma compound_T_never_returns op fuel (a : addr) k σ r :
  fst (compound_T op fuel a k σ) <> Normal r.
Proof.
  rewrite compound_T_unfold. unfold EV.with_promoted.
  repeat (apply never_normal_bind; intros); done.
Qed.

(** X7. Neither [operator=(T)] nor one of the compound operators [+=], [-=],
    [*=], [/=], with an object or a bare number on the right, nor one of the
    binary operators [+], [-], [*], [/] built on them ever returns: each is
    declared to return a value and reaches its end, or that of the
    compound operator it calls, without a [return] statement -- unless the
    call ends before in an exception, a loop without end or other undefined
    behaviour. [x = v] has then replaced the value of [x] and nothing
    else. *)
Theorem assignment_and_arithmetic_never_return op fuel σ (a b : addr) k :
  (forall r,
     fst (EV.op_assign_T a k σ) <> Normal r /\
     fst (compound op a b σ) <> Normal r /\
     fst (compound_T op fuel a k σ) <> Normal r /\
     fst (operator op a b σ) <> Normal r /\
     fst (EV.binary_T (compound_T op) fuel a k σ) <> Normal r) /\
  (forall x,
     objs σ !! a = Some x ->
     EV.op_assign_T a k σ =
       (Undefined, mkState (<[a := with_value k x]> (objs σ)) (divisors σ))).
Proof.
  split.
  - intros r. split; [|split; [|split; [|split]]].
    + unfold EV.op_assign_T. by apply never_normal_bind.
    + apply compound_never_returns.
    + apply compound_T_never_returns.
    + rewrite operator_unfold. unfold EV.binary.
      apply never_normal_bind; intros x σ1 r1.
      apply never_normal_bind; intros res σ2 r2.
      apply never_normal_first. intros σ3 r3.
      apply compound_never_returns.
    + unfold EV.binary_T.
      apply never_normal_bind; intros x σ1 r1.
      apply never_normal_bind; intros res σ2 r2.
      unfold EV.scoped.
      pose proof (never_normal_first (compound_T op fuel res k)
                    (fun _ => load res) σ2
                    (fun σ3 r3 => compound_T_never_returns op fuel res k σ3 r3))
        as Hbody.
      destruct ((compound_T op fuel res k ≫= _) σ2) as [[y| | |] σ3];
        simpl in *; [by destruct (Hbody y) | done..].
  - intros x Hx. unfold EV.op_assign_T, set_value. by mstep.
Qed.
End Promoted.

(** [(6 ± 1) *= 2] on [int] under [DEF_ERROR_ZERO], without fuel. *)
Lemma six_times_two_under_zero :
  compound_T Times 0 1%positive 2%Z
      (two_objects SampleInt.six SampleInt.three) =
    (Undefined,
     mkState (<[1%positive :=
                  stored Times 12%Z SampleInt.six (EV.ctor 2%Z (of_Z 0))]>
                (<[fresh (dom (objs (two_objects SampleInt.six
                                       SampleInt.three))) :=
                     EV.ctor 2%Z (of_Z 0)]>
                   (objs (two_objects SampleInt.six SampleInt.three))))
             (formula_divisors Times SampleInt.six (EV.ctor 2%Z (of_Z 0)) ++
              value_divisors Times (EV.ctor 2%Z (of_Z 0) : ErrorValue Z Q) ++
              divisors (two_objects SampleInt.six SampleInt.three))).
Proof.
  exact (promotion_under_zero Times 0
           (two_objects SampleInt.six SampleInt.three) 1%positive
           SampleInt.six 2%Z 12%Z eq_refl eq_refl eq_refl).
Defined.

(** [(6 ± 1) /= 2] and [(6 ± 1) / 2] on [int] with the policy
    [DEF_ERROR_FUNC] and no function. *)
Lemma six_over_two_without_function :
  compound_T Over 5 1%positive 2%Z
      (two_objects SampleInt.six_no_function SampleInt.three) =
    (Throws bad_function_call,
     two_objects SampleInt.six_no_function SampleInt.three) /\
  EV.binary_T (compound_T Over) 5 1%positive 2%Z
      (two_objects SampleInt.six_no_function SampleInt.three) =
    (Throws bad_function_call,
     two_objects SampleInt.six_no_function SampleInt.three).
Proof.
  exact (promotion_throws_without_function Over 5
           (two_objects SampleInt.six_no_function SampleInt.three)
           1%positive SampleInt.six_no_function 2%Z
           eq_refl eq_refl eq_refl).
Defined.

(** [x = 7] on the [int] object [6 ± 1]. *)
Lemma seven_assigned_to_six :
  EV.op_assign_T 1%positive 7%Z
      (two_objects SampleInt.six SampleInt.three) =
    (Undefined,
     mkState (<[1%positive := with_value 7%Z SampleInt.six]>
                (objs (two_objects SampleInt.six SampleInt.three)))
             (divisors (two_objects SampleInt.six SampleInt.three))).
Proof.
  exact (proj2 (assignment_and_arithmetic_never_return Plus 0
                  (two_objects SampleInt.six SampleInt.three)
                  1%positive 2%positive 7%Z)
           SampleInt.six eq_refl).
Defined.

(** ** Members read back *)

Section ReadBack.
Context {T E : Type} `{Arith E} `{Value T} `{Convert T E}.
Implicit Types (σ : state T E) (this : addr) (x : ErrorValue T E).

(** X6. After [x.set(v, e)], [x[0]] is [v] -- converted to [E], the type
    that [operator[]] returns -- and [x[1]] is [e]; every other index throws
    [std::range_error] without touching the store. [set] keeps the policy of
    [x] and every other object. *)
Theorem set_then_index σ this x (v : T) (e : E) :
  objs σ !! this = Some x ->
  exists σ',
    EV.set this v e σ = (Normal tt, σ') /\
    objs σ' =
      <[this := mkErrorValue v e (numberDefaultErrorCode x)
                             (defaultErrorCalcFunction x)]> (objs σ) /\
    EV.op_index this 0 σ' = (Normal (to_E v), σ') /\
    EV.op_index this 1 σ' = (Normal e, σ') /\
    (forall i, i <> 0%Z -> i <> 1%Z ->
       EV.op_index this i σ' =
         (Throws (range_error "ErrorValue index must be 0 or 1"), σ')).
Proof.
  intros Hx. eexists. split.
  { unfold EV.set, set_value, set_error. mstep.
    erewrite update_live by live.
    cbn [objs divisors value error numberDefaultErrorCode
         defaultErrorCalcFunction].
    by rewrite insert_insert_eq. }
  split; [reflexivity|].
  unfold EV.op_index. repeat split.
  - by mstep.
  - by mstep.
  - intros i H0' H1'. mstep. by rewrite !decide_False.
Qed.

(** X8. The getters after a call of the setter (whose exception the caller
    caught): with code 2 they give back the code and the function passed,
    null or not; with code 0 or 1 the code and no function, although the
    function member still holds the one stored before; with any other code
    what they gave before the call. *)
Theorem getters_after_setter σ this x code fn :
  objs σ !! this = Some x ->
  exists σ' x',
    snd (EV.setDefaultErrorCalculationMethod this code fn σ) = σ' /\
    objs σ' !! this = Some x' /\
    (code = DEF_ERROR_FUNC ->
       EV.getDefaultErrorCalculationMethod x' = DEF_ERROR_FUNC /\
       EV.getDefaultErrorCalcFunction x' = fn) /\
    (code = DEF_ERROR_ZERO \/ code = DEF_ERROR_HALF ->
       EV.getDefaultErrorCalculationMethod x' = code /\
       EV.getDefaultErrorCalcFunction x' = None /\
       defaultErrorCalcFunction x' = defaultErrorCalcFunction x) /\
    (code <> DEF_ERROR_ZERO -> code <> DEF_ERROR_HALF ->
     code <> DEF_ERROR_FUNC -> x' = x).
Proof.
  intros Hx.
  unfold EV.setDefaultErrorCalculationMethod, EV.from_DEF_ERROR_FUNC,
    EV.from_DEF_ERROR_ZERO, EV.from_DEF_ERROR_HALF, EV.from_default,
    EV.set_fun, EV.set_code, EV.getDefaultErrorCalculationMethod,
    EV.getDefaultErrorCalcFunction.
  unfold DEF_ERROR_FUNC, DEF_ERROR_ZERO, DEF_ERROR_HALF.
  repeat case_decide; subst.
  - do 2 mstep. eexists _, _. split; [reflexivity|]. cbn [throw snd objs].
    split; [apply lookup_insert_eq|]. cbn.
    repeat split; intros; try lia; try done;
      try (match goal with Hor : _ \/ _ |- _ => destruct Hor; lia end).
  - mstep. eexists _, _. split; [reflexivity|]. cbn [throw snd objs].
    split; [apply lookup_insert_eq|]. cbn.
    repeat split; intros; try lia; try done;
      try (match goal with Hor : _ \/ _ |- _ => destruct Hor; lia end).
  - mstep. eexists _, _. split; [reflexivity|]. cbn [throw snd objs].
    split; [apply lookup_insert_eq|]. cbn.
    repeat split; intros; try lia; try done;
      try (match goal with Hor : _ \/ _ |- _ => destruct Hor; lia end).
  - eexists _, _. split; [reflexivity|]. cbn [throw snd].
    split; [exact Hx|]. repeat split; intros; try lia; try done;
    try (match goal with Hor : _ \/ _ |- _ => destruct Hor; lia end).
Qed.

End ReadBack.

(** ** The aliased product *)

Section Aliasing.
Context {T E : Type} `{Arith E} `{Value T} `{Convert T E}.
Implicit Types (σ : state T E) (x : ErrorValue T E).

(** X23. Squaring in place is not squaring by copy. In [a *= a] the
    parameter [ev] names [*this], so the second quotient of the error
    formula divides by the value that [value *= ev.value] has just stored,
    the square [p]; in [a * a] the left operand is the copy [res], and the
    quotient divides by the value of [a]. With the same value [p] the two
    errors differ in that divisor. *)
Theorem square_in_place_and_by_copy σ (a : addr) x (p : T) :
  objs σ !! a = Some x ->
  v_mul (value x) (value x) = Some p ->
  (exists σ' r,
      EV.op_mul_assign a a σ = (Undefined, σ') /\
      objs σ' !! a = Some r /\
      value r = p /\
      error r = mul (to_E p) (add (div (error x) (to_E (value x)))
                                  (div (error x) (to_E p))) /\
      divisors σ' = to_E p :: to_E (value x) :: divisors σ) /\
  (exists σ' r,
      EV.op_mul a a σ = (Undefined, σ') /\
      objs σ' !! fresh (dom (objs σ)) = Some r /\
      objs σ' !! a = Some x /\
      value r = p /\
      error r = mul (to_E p) (add (div (error x) (to_E (value x)))
                                  (div (error x) (to_E (value x)))) /\
      divisors σ' = to_E (value x) :: to_E (value x) :: divisors σ).
Proof.
  intros Ha Hp.
  change (EV.op_mul_assign a a σ) with (compound Times a a σ).
  change (EV.op_mul a a σ) with (operator Times a a σ).
  rewrite (compound_run Times σ a a x x p Ha Ha Hp),
    (operator_run Times σ a a x x p Ha Ha Hp).
  unfold seen. rewrite decide_True by done.
  split; eexists _, _; (split; [reflexivity|]); cbn [objs divisors].
  - split; [apply lookup_insert_eq|]. by repeat split.
  - split; [apply lookup_insert_eq|].
    split; [rewrite lookup_insert_ne; eauto using live_not_fresh|].
    by repeat split.
Qed.

End Aliasing.

(** ** The bounds *)

Section Bounds.
Context {T E : Type} `{Arith E} `{Value T} `{Convert T E}.
Implicit Types (σ : state T E) (this : addr) (x : ErrorValue T E).

(** C6 (as the code has it). [min()] is [value - error] and [max()] is
    [value + error], both taken in [E]. No member looks at the sign of the
    error: after [x.set(v, e)], with whatever [e], the bounds of [x] are
    [v - e] and [v + e], and so are those of [ErrorValue(v, e)]. *)
Theorem bounds_are_value_minus_and_plus_error σ this x (v : T) (e : E) :
  objs σ !! this = Some x ->
  EV.min x = sub (to_E (value x)) (error x) /\
  EV.max x = add (to_E (value x)) (error x) /\
  EV.min (EV.ctor v e) = sub (to_E v) e /\
  EV.max (EV.ctor v e) = add (to_E v) e /\
  exists σ' x',
    EV.set this v e σ = (Normal tt, σ') /\
    objs σ' !! this = Some x' /\
    EV.min x' = sub (to_E v) e /\ EV.max x' = add (to_E v) e.
Proof.
  intros Hx. do 4 (split; [reflexivity|]).
  eexists _, _. split.
  { unfold EV.set, set_value, set_error. mstep.
    erewrite update_live by live. reflexivity. }
  cbn [objs]. split; [apply lookup_insert_eq|]. by split.
Qed.
End Bounds.

(** [x.set(7, 2)] on [6 ± 1]. *)
Lemma set_then_index_of_six :
  exists σ',
    EV.set 1%positive 7%Q 2%Q (two_objects Sample.six Sample.three) =
      (Normal tt, σ') /\
    objs σ' =
      <[1%positive := mkErrorValue 7%Q 2%Q DEF_ERROR_ZERO None]>
        (objs (two_objects Sample.six Sample.three)) /\
    EV.op_index 1%positive 0 σ' = (Normal (to_E 7%Q), σ') /\
    EV.op_index 1%positive 1 σ' = (Normal 2%Q, σ') /\
    (forall i, i <> 0%Z -> i <> 1%Z ->
       EV.op_index 1%positive i σ' =
         (Throws (range_error "ErrorValue index must be 0 or 1"), σ')).
Proof.
  exact (set_then_index (two_objects Sample.six Sample.three) 1%positive
           Sample.six 7%Q 2%Q eq_refl).
Defined.

(** The setter called with [DEF_ERROR_ZERO] on an object that has a
    function: the getter no longer gives it. *)
Lemma getters_after_zero_on_six_tenth :
  exists σ' x',
    snd (EV.setDefaultErrorCalculationMethod 1%positive DEF_ERROR_ZERO None
           (two_objects Sample.six_tenth Sample.three)) = σ' /\
    objs σ' !! 1%positive = Some x' /\
    (DEF_ERROR_ZERO = DEF_ERROR_FUNC ->
       EV.getDefaultErrorCalculationMethod x' = DEF_ERROR_FUNC /\
       EV.getDefaultErrorCalcFunction x' = None) /\
    (DEF_ERROR_ZERO = DEF_ERROR_ZERO \/ DEF_ERROR_ZERO = DEF_ERROR_HALF ->
       EV.getDefaultErrorCalculationMethod x' = DEF_ERROR_ZERO /\
       EV.getDefaultErrorCalcFunction x' = None /\
       defaultErrorCalcFunction x' =
         defaultErrorCalcFunction Sample.six_tenth) /\
    (DEF_ERROR_ZERO <> DEF_ERROR_ZERO -> DEF_ERROR_ZERO <> DEF_ERROR_HALF ->
     DEF_ERROR_ZERO <> DEF_ERROR_FUNC -> x' = Sample.six_tenth).
Proof.
  exact (getters_after_setter (two_objects Sample.six_tenth Sample.three)
           1%positive Sample.six_tenth DEF_ERROR_ZERO None eq_refl).
Defined.

(** [a *= a] and [a * a] with [a = 2 ± 1] in binary64, where the square is
    [4]: the errors are [4*(1/2 + 1/4)] and [4*(1/2 + 1/2)]. *)
Lemma square_of_two :
  (exists σ' r,
      EV.op_mul_assign 1%positive 1%positive
          (two_objects Binary64Sample.two Binary64Sample.three) =
        (Undefined, σ') /\
      objs σ' !! 1%positive = Some r /\
      value r = Binary64.float_of_Z 4 /\
      error r =
        mul (to_E (Binary64.float_of_Z 4))
            (add (div (error Binary64Sample.two)
                      (to_E (value Binary64Sample.two)))
                 (div (error Binary64Sample.two)
                      (to_E (Binary64.float_of_Z 4)))) /\
      divisors σ' =
        [to_E (Binary64.float_of_Z 4); to_E (value Binary64Sample.two)]) /\
  (exists σ' r,
      EV.op_mul 1%positive 1%positive
          (two_objects Binary64Sample.two Binary64Sample.three) =
        (Undefined, σ') /\
      objs σ' !! fresh (dom (objs (two_objects Binary64Sample.two
                                     Binary64Sample.three))) = Some r /\
      objs σ' !! 1%positive = Some Binary64Sample.two /\
      value r = Binary64.float_of_Z 4 /\
      error r =
        mul (to_E (Binary64.float_of_Z 4))
            (add (div (error Binary64Sample.two)
                      (to_E (value Binary64Sample.two)))
                 (div (error Binary64Sample.two)
                      (to_E (value Binary64Sample.two)))) /\
      divisors σ' =
        [to_E (value Binary64Sample.two); to_E (value Binary64Sample.two)]).
Proof.
  exact (square_in_place_and_by_copy
           (two_objects Binary64Sample.two Binary64Sample.three) 1%positive
           Binary64Sample.two (Binary64.float_of_Z 4) eq_refl eq_refl).
Defined.

(** C6 at a concrete input: [x.set(0, -1)] on [2 ± 1] in binary64. *)
Lemma bounds_after_set :
  EV.min Binary64Sample.two =
    sub (to_E (value Binary64Sample.two)) (error Binary64Sample.two) /\
  EV.max Binary64Sample.two =
    add (to_E (value Binary64Sample.two)) (error Binary64Sample.two) /\
  EV.min (EV.ctor (Binary64.float_of_Z 0) (Binary64.float_of_Z (-1))) =
    sub (to_E (Binary64.float_of_Z 0)) (Binary64.float_of_Z (-1)) /\
  EV.max (EV.ctor (Binary64.float_of_Z 0) (Binary64.float_of_Z (-1))) =
    add (to_E (Binary64.float_of_Z 0)) (Binary64.float_of_Z (-1)) /\
  exists σ' x',
    EV.set 1%positive (Binary64.float_of_Z 0) (Binary64.float_of_Z (-1))
        (two_objects Binary64Sample.two Binary64Sample.three) =
      (Normal tt, σ') /\
    objs σ' !! 1%positive = Some x' /\
    EV.min x' =
      sub (to_E (Binary64.float_of_Z 0)) (Binary64.float_of_Z (-1)) /\
    EV.max x' =
      add (to_E (Binary64.float_of_Z 0)) (Binary64.float_of_Z (-1)).
Proof.
  exact (bounds_are_value_minus_and_plus_error
           (two_objects Binary64Sample.two Binary64Sample.three) 1%positive
           Binary64Sample.two (Binary64.float_of_Z 0)
           (Binary64.float_of_Z (-1)) eq_refl).
Defined.

(** Against C6 as it is stated, in binary64: the constructor takes
    [ErrorValue(0, -1)], whose [min()] is [1] and whose [max()] is [-1], so
    that [min() <= value] and [value <= max()] both fail. *)
Lemma bounds_of_negative_error :
  EV.min Binary64Sample.negative_error = Binary64.float_of_Z 1 /\
  EV.max Binary64Sample.negative_error = Binary64.float_of_Z (-1) /\
  PrimFloat.leb (EV.min Binary64Sample.negative_error)
                (to_E (value Binary64Sample.negative_error)) = false /\
  PrimFloat.leb (to_E (value Binary64Sample.negative_error))
                (EV.max Binary64Sample.negative_error) = false.
Proof. vm_compute. repeat split. Qed.

(** ** Negation *)

Module ArithmeticFacts.
Import Real.
Local Open Scope R_scope.
Implicit Types (x y : ErrorValue R R) (σ : state R R) (a b : addr).

(** X15. [-(-x)] has the value and the error of [x], but the policy
    [DEF_ERROR_ZERO] and no function whatever policy [x] had:
    [operator-()] builds its result with [ErrorValue(-value, error)]. *)
Theorem double_negation σ a x :
  objs σ !! a = Some x ->
  exists σ1 c r,
    initialise (EV.op_neg a) σ = (Normal tt, σ1) /\
    objs σ1 = <[c := EV.ctor (- value x) (error x)]> (objs σ) /\
    EV.op_neg c σ1 = (Normal r, σ1) /\
    value r = value x /\ error r = error x /\
    EV.getDefaultErrorCalculationMethod r = DEF_ERROR_ZERO /\
    EV.getDefaultErrorCalcFunction r = None.
Proof.
  intros Ha. unfold initialise, EV.op_neg.
  eexists _, (fresh (dom (objs σ))), _. split.
  { erewrite bind_normal; [|do 2 mstep; reflexivity]. by mstep. }
  split; [reflexivity|]. split; [by do 2 mstep|].
  simpl. repeat split. ring.
Qed.
End ArithmeticFacts.

Module ArithmeticWitnesses.
Import Real.
Local Open Scope R_scope.

Local Abbreviation σ0 := (two_objects SampleR.four SampleR.three_quarters).

(** [-(-(4 ± 1))]. *)
Lemma minus_minus_four :
  exists σ1 c r,
    initialise (EV.op_neg 1%positive) σ0 = (Normal tt, σ1) /\
    objs σ1 =
      <[c := EV.ctor (- value SampleR.four) (error SampleR.four)]>
        (objs σ0) /\
    EV.op_neg c σ1 = (Normal r, σ1) /\
    value r = value SampleR.four /\ error r = error SampleR.four /\
    EV.getDefaultErrorCalculationMethod r = DEF_ERROR_ZERO /\
    EV.getDefaultErrorCalcFunction r = None.
Proof.
  exact (ArithmeticFacts.double_negation σ0 1%positive SampleR.four eq_refl).
Defined.
End ArithmeticWitnesses.
